(** * create-task-with-ai: the task-creation edge function

    A shallow embedding of [supabase/functions/create-task-with-ai/index.ts]
    together with the [public.tasks] table of
    [supabase/migrations/1_init_tasks.sql], and the properties of the
    task-creation pipeline proved against it.

    The handler talks to three services.  They are not part of the
    repository, so their answers are fields of an environment [Env]: whom
    the identity service finds behind a header, whether a store statement
    fails for a reason of the store's own, what the completion call
    resolves to or rejects with.  What the repository does determine is
    modelled: the order of the handler's steps, its two [try] blocks, the
    normalization and validation of the suggestion, the columns, defaults
    and constraints of the table.  Every effect is recorded in a trace, so
    that "no write was attempted" and "no completion call was made" are
    statements about a list of events.

    Layout:
    - [JsString]: [toLowerCase], [trim] and [includes];
    - [Json]: the values [req.json()] resolves to, and the destructuring of
      [title] and [description];
    - [Store]: the [tasks] table, its insert and its label update;
    - [Handler]: the [Deno.serve] callback, in a small state-and-exception
      monad;
    - the vocabulary of the statements and a concrete deployment [Sample];
    - more of the repository: [StripeSession] (create-stripe-session),
      [OpenAIChat] (openai-chat), [TaskRow] (the due-date cell),
      [UseOpenAI] (the hook) and [UsersSync] (the users table and its
      trigger function), over [JsSplit] and [Effects];
    - the properties: how a request runs stage by stage, the store
      statements, the enrichment block, the claims C1 to C10, and then
      the further properties X1 to X29. *)

From Stdlib Require Import String Ascii List Bool Arith ZArith Lia.
From Stdlib Require Import DecimalString.
Import ListNotations.

Local Open Scope string_scope.

(* ===================================================================== *)
(** ** JavaScript strings *)
(* ===================================================================== *)

(** Strings are sequences of code units below 256 (the Latin-1 range), which
    is where the five labels and every example of the specification live.
    On that range [toLowerCase] maps A-Z and the accented capitals
    U+00C0-U+00DE (U+00D7 apart) thirty-two places up, and [trim] removes
    the ECMAScript WhiteSpace and LineTerminator code units: TAB, LF, VT,
    FF, CR, SP and NBSP. *)
Module JsString.

Definition lower_char (c : ascii) : ascii :=
  let n := nat_of_ascii c in
  if (((65 <=? n) && (n <=? 90))
      || ((192 <=? n) && (n <=? 222) && negb (n =? 215)))%nat
  then ascii_of_nat (n + 32)
  else c.

Fixpoint toLowerCase (s : string) : string :=
  match s with
  | EmptyString => EmptyString
  | String c r => String (lower_char c) (toLowerCase r)
  end.

Definition is_space (c : ascii) : bool :=
  let n := nat_of_ascii c in
  (((9 <=? n) && (n <=? 13)) || (n =? 32) || (n =? 160))%nat.

Fixpoint trimStart (s : string) : string :=
  match s with
  | EmptyString => EmptyString
  | String c r => if is_space c then trimStart r else s
  end.

(** [trimEnd] keeps a character when it is not white space or when
    something survives to its right. *)
Fixpoint trimEnd (s : string) : string :=
  match s with
  | EmptyString => EmptyString
  | String c r =>
      match trimEnd r with
      | EmptyString => if is_space c then EmptyString else String c EmptyString
      | kept => String c kept
      end
  end.

Definition trim (s : string) : string := trimEnd (trimStart s).

(** [s.includes(needle)]: [needle] occurs in [s] as a substring. *)
Fixpoint includes (needle s : string) : bool :=
  prefix needle s ||
  match s with
  | EmptyString => false
  | String _ r => includes needle r
  end.

(** [Array.prototype.includes] on an array of strings, with an argument
    that may be [undefined] ([None]): strict equality never relates
    [undefined] to a string. *)
Definition array_includes (xs : list string) (x : option string) : bool :=
  match x with
  | None => false
  | Some s => existsb (String.eqb s) xs
  end.

(** Truthiness of a string value that may be [null] or [undefined]. *)
Definition truthy (x : option string) : bool :=
  match x with
  | None => false
  | Some s => negb (String.eqb s EmptyString)
  end.

End JsString.

(* ===================================================================== *)
(** ** JSON values and the request body *)
(* ===================================================================== *)

Module Json.

(** What [req.json()] resolves to.  A number is identified by its
    [Number::toString] rendering. *)
#[local] Set Warnings "-register-all".
Inductive json : Type :=
| JNull
| JBool (b : bool)
| JNum (repr : string)
| JStr (s : string)
| JArr (items : list json)
| JObj (fields : list (string * json)).

(** A JavaScript value read out of the body: [None] is [undefined]. *)
Definition jsval : Type := option json.

(** Own property of a parsed object; [JSON.parse] keeps the last of
    several members with one key. *)
Fixpoint last_member (k : string) (fields : list (string * json)) : jsval :=
  match fields with
  | [] => None
  | (k', v) :: more =>
      match last_member k more with
      | Some later => Some later
      | None => if String.eqb k k' then Some v else None
      end
  end.

(** [v.k] for a value [v] that came out of [JSON.parse] and is not [null]:
    only objects have members named [title] or [description]. *)
Definition get (k : string) (v : json) : jsval :=
  match v with
  | JObj fields => last_member k fields
  | _ => None
  end.

(** [const { title, description } = v]: destructuring [null] throws a
    [TypeError]; any other parsed value yields the two properties. *)
Definition destructure (v : json) : option (jsval * jsval) :=
  match v with
  | JNull => None
  | _ => Some (get "title" v, get "description" v)
  end.

(** Is the value [null] or [undefined]?  Such a property is serialized as
    SQL NULL (or left to the column default, which is NULL as well). *)
Definition nullish (v : jsval) : bool :=
  match v with
  | None | Some JNull => true
  | Some _ => false
  end.

End Json.

Import Json.

(* ===================================================================== *)
(** ** The tasks table *)
(* ===================================================================== *)

Module Store.

Definition uuid : Type := nat.
Definition timestamptz : Type := Z.

(** A row of [public.tasks]; a nullable column is an [option]. *)
Record task : Type := mkTask {
  task_id : uuid;
  user_id : option uuid;
  title : string;
  description : option string;
  image_url : option string;
  label : option string;
  due_date : option timestamptz;
  completed : option bool;
  created_at : option timestamptz;
  updated_at : option timestamptz
}.

(** The error object of a store call ([error], [updateError]). *)
Record pg_error : Type := mkPgError {
  pg_code : string;
  pg_message : string
}.

(** The table, the database clock read by [now()], and how many uuids
    [gen_random_uuid()] has handed out. *)
Record db : Type := mkDb {
  rows : list task;
  clock : timestamptz;
  draws : nat
}.

(** The object passed to [.insert(...)]: it has no [label] key. *)
Record insert_payload : Type := mkInsert {
  ins_title : jsval;
  ins_description : jsval;
  ins_completed : bool;
  ins_user_id : uuid
}.

(** [label in ('work', 'personal', 'priority', 'shopping', 'home')] *)
Definition label_domain : list string :=
  ["work"; "personal"; "priority"; "shopping"; "home"].

Definition label_check (l : option string) : bool :=
  match l with
  | None => true
  | Some s => existsb (String.eqb s) label_domain
  end.

Definition not_null_title : pg_error :=
  mkPgError "23502"
    "null value in column title of relation tasks violates not-null constraint".

Definition duplicate_task_id : pg_error :=
  mkPgError "23505"
    "duplicate key value violates unique constraint tasks_pkey".

Definition label_check_violation : pg_error :=
  mkPgError "23514"
    "new row for relation tasks violates check constraint tasks_label_check".

Definition not_a_single_row : pg_error :=
  mkPgError "PGRST116" "JSON object requested, multiple (or no) rows returned".

(** Every statement takes time. *)
Definition tick (d : db) : db :=
  mkDb (rows d) (clock d + 1)%Z (draws d).

(** A value bound for a [text] column: [null] and [undefined] give NULL, a
    string is stored as it is, anything else through the store's cast. *)
Definition text_column (cast : json -> string) (v : jsval) : option string :=
  match v with
  | None | Some JNull => None
  | Some (JStr s) => Some s
  | Some other => Some (cast other)
  end.

Definition has_id (id : uuid) (t : task) : bool := Nat.eqb (task_id t) id.

(** [.insert(p).select().single()]: one statement, all or nothing.  The
    columns left out take their defaults: a fresh [task_id], NULL for
    [image_url], [label] and [due_date], [now()] for both timestamps. *)
Definition insert_task (fault : option pg_error) (cast : json -> string)
    (gen : nat -> uuid) (p : insert_payload) (d : db)
  : (pg_error + task) * db :=
  let d1 := tick d in
  match fault with
  | Some e => (inl e, d1)
  | None =>
      match text_column cast (ins_title p) with
      | None => (inl not_null_title, d1)
      | Some ttl =>
          let id := gen (draws d) in
          let d2 := mkDb (rows d1) (clock d1) (S (draws d1)) in
          if existsb (has_id id) (rows d)
          then (inl duplicate_task_id, d2)
          else
            let row :=
              mkTask id (Some (ins_user_id p)) ttl
                     (text_column cast (ins_description p))
                     None None None (Some (ins_completed p))
                     (Some (clock d)) (Some (clock d)) in
            (inr row, mkDb (rows d ++ [row]) (clock d2) (draws d2))
      end
  end.

Definition set_label (l : string) (t : task) : task :=
  mkTask (task_id t) (user_id t) (title t) (description t) (image_url t)
         (Some l) (due_date t) (completed t) (created_at t) (updated_at t).

(** The effect of [.update({ label }).eq("task_id", id)] on one row. *)
Definition relabel (id : uuid) (l : string) (r : task) : task :=
  if has_id id r then set_label l r else r.

(** [.update({ label }).eq("task_id", id).select().single()]: only the
    [label] column is assigned; the statement is undone unless exactly one
    row came back. *)
Definition update_label (fault : option pg_error) (id : uuid) (l : string)
    (d : db) : (pg_error + task) * db :=
  let d1 := tick d in
  match fault with
  | Some e => (inl e, d1)
  | None =>
      match filter (has_id id) (rows d) with
      | [] => (inl not_a_single_row, d1)
      | [t] =>
          if label_check (Some l)
          then (inr (set_label l t),
                mkDb (map (relabel id l) (rows d)) (clock d1) (draws d1))
          else (inl label_check_violation, d1)
      | _ :: _ :: _ =>
          if label_check (Some l)
          then (inl not_a_single_row, d1)
          else (inl label_check_violation, d1)
      end
  end.

(** The row with a given id, as a later read by its owner would see it. *)
Definition lookup (id : uuid) (d : db) : option task :=
  find (has_id id) (rows d).

End Store.

Import Store.

(* ===================================================================== *)
(** ** The handler *)
(* ===================================================================== *)

Module Handler.

(** *** The request and the response *)

(** [req.json()] either rejects with a [SyntaxError] or resolves to the
    parsed value. *)
Inductive parsed : Type :=
| Malformed (why : string)
| Parsed (v : json).

Record request : Type := mkRequest {
  method : string;
  authorization : option string;   (* req.headers.get("Authorization") *)
  body : parsed
}.

Inductive headers : Type :=
| CorsHeaders        (* corsHeaders *)
| JsonAnyOrigin      (* Content-Type and Access-Control-Allow-Origin *)
| CorsJson.          (* { ...corsHeaders, "Content-Type": ... } *)

Inductive content : Type :=
| NoContent
| TaskJson (t : task)          (* JSON.stringify(data) *)
| ErrorJson (msg : string).    (* JSON.stringify({ error: msg }) *)

Record response : Type := mkResponse {
  status : Z;
  response_headers : headers;
  response_body : content
}.

(** *** The collaborators *)

Record user : Type := mkUser { id : uuid }.

(** What the completion call rejects with: an error object with a string
    [message], the optional properties the catch clause reads, and its
    [JSON.stringify] rendering. *)
Record api_error : Type := mkApiError {
  err_status : option Z;
  err_response_status : option Z;
  err_statusCode : option Z;
  err_message : string;
  err_json : string;
  err_code : option string;
  err_response_code : option string;
  err_type : option string;
  err_response_type : option string
}.

(** [choices] lists [message.content] of each choice: a string or [null]. *)
Inductive completion : Type :=
| Rejects (e : api_error)
| Resolves (choices : list (option string)).

(** The environment variables and the services behind the three clients. *)
Record Env : Type := mkEnv {
  OPENAI_API_KEY : option string;
  ENABLE_OPENAI_variable : option string;
  auth_getUser : string -> option user;
  insert_fault : option pg_error;
  update_fault : option pg_error;
  gen_random_uuid : nat -> uuid;
  chat_completions_create : string -> completion;
  js_ToString : json -> string;   (* ToString of a value that is not a string *)
  pg_text : json -> string        (* the store's cast of such a value to text *)
}.

(** [Deno.env.get("ENABLE_OPENAI") !== "false"] *)
Definition ENABLE_OPENAI (env : Env) : bool :=
  match ENABLE_OPENAI_variable env with
  | Some v => negb (String.eqb v "false")
  | None => true
  end.

(** *** Effects *)

Inductive level : Type := LogLevel | WarnLevel | ErrorLevel.

Inductive event : Type :=
| GetUser (authHeader : string)
| Insert (p : insert_payload)
| CompletionCall (prompt : string)
| Update (tid : uuid) (l : string)
| Console (lv : level) (text : string).

Record world : Type := mkWorld {
  store : db;
  trace : list event      (* oldest first *)
}.

Inductive exn : Type :=
| SyntaxError (msg : string)
| TypeError (msg : string)
| Error (msg : string)
| PostgrestError (e : pg_error).

Definition message (e : exn) : string :=
  match e with
  | SyntaxError msg | TypeError msg | Error msg => msg
  | PostgrestError e => pg_message e
  end.

Inductive result (E A : Type) : Type :=
| Ok (a : A)
| Throw (e : E).
Arguments Ok {E A} a.
Arguments Throw {E A} e.

(** A computation that may throw an [E], over the store and the trace. *)
Definition M (E A : Type) : Type := world -> result E A * world.

Definition ret {E A} (a : A) : M E A := fun w => (Ok a, w).

Definition throw {E A} (e : E) : M E A := fun w => (Throw e, w).

Definition bind {E A B} (c : M E A) (k : A -> M E B) : M E B :=
  fun w =>
    match c w with
    | (Ok a, w') => k a w'
    | (Throw e, w') => (Throw e, w')
    end.

Definition try_catch {E E' A} (c : M E A) (handler : E -> M E' A) : M E' A :=
  fun w =>
    match c w with
    | (Ok a, w') => (Ok a, w')
    | (Throw e, w') => handler e w'
    end.

Definition emit {E} (ev : event) : M E unit :=
  fun w => (Ok tt, mkWorld (store w) (trace w ++ [ev])).

(** [console.log], [console.warn], [console.error]; [text] is the literal
    part of the message. *)
Definition console {E} (lv : level) (text : string) : M E unit :=
  emit (Console lv text).

Declare Scope handler_scope.
Delimit Scope handler_scope with handler.
Notation "x <- c ;; k" := (bind c (fun x => k))
  (at level 61, c at next level, right associativity) : handler_scope.
Notation "c ;;; k" := (bind c (fun _ => k))
  (at level 61, right associativity) : handler_scope.
Local Open Scope handler_scope.

(** [supabaseClient.auth.getUser()] with the request's header attached. *)
Definition getUser {E} (env : Env) (authHeader : string) : M E (option user) :=
  emit (GetUser authHeader) ;;;
  ret (auth_getUser env authHeader).

(** [supabaseClient.from("tasks").insert(p).select().single()] resolves to
    [{ data, error }]; it does not throw. *)
Definition tasks_insert {E} (env : Env) (p : insert_payload)
  : M E (pg_error + task) :=
  emit (Insert p) ;;;
  fun w =>
    let '(r, d) := insert_task (insert_fault env) (pg_text env)
                               (gen_random_uuid env) p (store w) in
    (Ok r, mkWorld d (trace w)).

(** [supabaseClient.from("tasks").update({ label }).eq("task_id", id)
    .select().single()] *)
Definition tasks_update {E} (env : Env) (tid : uuid) (l : string)
  : M E (pg_error + task) :=
  emit (Update tid l) ;;;
  fun w =>
    let '(r, d) := update_label (update_fault env) tid l (store w) in
    (Ok r, mkWorld d (trace w)).

(** [openai.chat.completions.create(...)] *)
Definition completions_create (env : Env) (prompt : string)
  : M api_error (list (option string)) :=
  emit (CompletionCall prompt) ;;;
  match chat_completions_create env prompt with
  | Rejects e => throw e
  | Resolves choices => ret choices
  end.

(** *** The enrichment block *)

Definition dquote : string := String (ascii_of_nat 34) EmptyString.

(** Interpolation into a template literal. *)
Definition interpolate (env : Env) (v : jsval) : string :=
  match v with
  | None => "undefined"
  | Some (JStr s) => s
  | Some other => js_ToString env other
  end.

Definition prompt_for (env : Env) (title description : jsval) : string :=
  "Based on this task title: " ++ dquote ++ interpolate env title ++ dquote
  ++ " and description: " ++ dquote ++ interpolate env description ++ dquote
  ++ ", suggest ONE of these labels: work, personal, priority, shopping, home."
  ++ " Reply with just the label word and nothing else.".
Arguments prompt_for : simpl never.

Definition validLabels : list string :=
  ["work"; "personal"; "priority"; "shopping"; "home"].

(** [content?.toLowerCase().trim()] *)
Definition normalize (content : option string) : option string :=
  option_map (fun s => JsString.trim (JsString.toLowerCase s)) content.

(** [validLabels.includes(suggestedLabel) ? suggestedLabel : null] *)
Definition validate (suggestedLabel : option string) : option string :=
  if JsString.array_includes validLabels suggestedLabel
  then suggestedLabel
  else None.

(** The label the handler derives from a completion's content. *)
Definition suggested (content : option string) : option string :=
  validate (normalize content).

(** [completion.choices[0].message.content]: reading [message] of a
    missing first choice throws. *)
Definition first_content (choices : list (option string))
  : M api_error (option string) :=
  match choices with
  | c :: _ => ret c
  | [] =>
      throw (mkApiError None None None
               "Cannot read properties of undefined (reading 'message')"
               "{}" None None None None)
  end.

(** [a || b] on two optional values. *)
Definition js_or {A} (truthy : A -> bool) (a b : option A) : option A :=
  match a with
  | Some x => if truthy x then a else b
  | None => b
  end.

Definition nonzero (z : Z) : bool := negb (Z.eqb z 0).
Definition nonempty (s : string) : bool := negb (String.eqb s EmptyString).

Definition errorStatus (e : api_error) : option Z :=
  js_or nonzero (js_or nonzero (err_status e) (err_response_status e))
        (err_statusCode e).

Definition errorMessage (e : api_error) : string :=
  if nonempty (err_message e) then err_message e else err_json e.

Definition errorCode (e : api_error) : option string :=
  js_or nonempty (err_code e) (err_response_code e).

Definition errorType (e : api_error) : option string :=
  js_or nonempty (err_type e) (err_response_type e).

Definition is_number (x : option Z) (z : Z) : bool :=
  match x with Some y => Z.eqb y z | None => false end.

Definition is_string (x : option string) (s : string) : bool :=
  match x with Some y => String.eqb y s | None => false end.

Definition isQuotaError (e : api_error) : bool :=
  is_number (errorStatus e) 429
  || JsString.includes "quota" (JsString.toLowerCase (errorMessage e))
  || JsString.includes "429" (JsString.toLowerCase (errorMessage e))
  || is_string (errorCode e) "rate_limit_exceeded".

(** The catch clause of the inner [try]: it logs and falls through. *)
Definition on_openaiError {E A} (fallthrough : A) (e : api_error) : M E A :=
  console ErrorLevel "OpenAI API Error Details:" ;;;
  (if isQuotaError e
   then console WarnLevel "OpenAI quota exceeded - task created without AI label"
   else console ErrorLevel "OpenAI error (task will be created without label)") ;;;
  ret fallthrough.
Arguments on_openaiError : simpl never.

Definition json_response (t : task) : response :=
  mkResponse 200 JsonAnyOrigin (TaskJson t).

(** Lines 63-141.  [Some r]: the block returned the response [r];
    [None]: control reaches the statement after the [if]. *)
Definition enrich (env : Env) (title description : jsval) (data : task)
  : M exn (option response) :=
  if JsString.truthy (OPENAI_API_KEY env) && ENABLE_OPENAI env
  then
    try_catch
      (choices <- completions_create env (prompt_for env title description) ;;
       content <- first_content choices ;;
       let suggestedLabel := normalize content in
       console LogLevel "AI Suggested Label:" ;;;
       match validate suggestedLabel with
       | Some label =>
           if nonempty label
           then
             r <- tasks_update env (task_id data) label ;;
             match r with
             | inl updateError =>
                 console ErrorLevel "Error updating task with label:" ;;;
                 ret None
             | inr updatedTask => ret (Some (json_response updatedTask))
             end
           else ret None
       | None => ret None
       end)
      (on_openaiError None)
  else ret None.

(** *** The request handler *)

(** The body of the outer [try]. *)
Definition try_block (env : Env) (req : request) : M exn response :=
  parsed_body <-
    match body req with
    | Malformed why => throw (SyntaxError why)
    | Parsed v => ret v
    end ;;
  fields <-
    match destructure parsed_body with
    | None =>
        throw (TypeError "Cannot destructure property 'title' of null")
    | Some td => ret td
    end ;;
  let '(title, description) := fields in
  console LogLevel "Creating task with AI suggestions..." ;;;
  authHeader <-
    match authorization req with
    | Some h => if nonempty h then ret h
                else throw (Error "No authorization header")
    | None => throw (Error "No authorization header")
    end ;;
  found <- getUser env authHeader ;;
  match found with
  | None => throw (Error "No user found")
  | Some user =>
      r <- tasks_insert env (mkInsert title description false (id user)) ;;
      match r with
      | inl error => throw (PostgrestError error)
      | inr data =>
          returned <- enrich env title description data ;;
          match returned with
          | Some early => ret early
          | None => ret (json_response data)
          end
      end
  end.

(** The callback given to [Deno.serve]. *)
Definition serve (env : Env) (req : request) (w : world) : response * world :=
  if String.eqb (method req) "OPTIONS"
  then (mkResponse 204 CorsHeaders NoContent, w)
  else
    match try_block env req w with
    | (Ok r, w') => (r, w')
    | (Throw error, w') =>
        (mkResponse 400 CorsJson (ErrorJson (message error)),
         mkWorld (store w')
                 (trace w' ++ [Console ErrorLevel "Error in create-task-with-ai:"]))
    end.

(** *** Reading a trace *)

Definition is_write (ev : event) : bool :=
  match ev with
  | Insert _ | Update _ _ => true
  | _ => false
  end.


Definition is_completion_call (ev : event) : bool :=
  match ev with
  | CompletionCall _ => true
  | _ => false
  end.

(** The events a run appended to the trace. *)
Definition writes (tr : list event) : list event := filter is_write tr.
Definition completion_calls (tr : list event) : list event :=
  filter is_completion_call tr.

End Handler.

Import Handler.
Local Open Scope handler_scope.
Local Open Scope list_scope.

(* ===================================================================== *)
(** ** Vocabulary for the statements *)
(* ===================================================================== *)

(** The world after one more event. *)
Definition logged (w : world) (ev : event) : world :=
  mkWorld (store w) (trace w ++ [ev]).

Definition started (w : world) : world :=
  logged w (Console LogLevel "Creating task with AI suggestions...").

(** The world in which the insert statement has run. *)
Definition inserting (env : Env) (h : string) (p : insert_payload) (w : world)
  : (pg_error + task) * world :=
  let w1 := logged (logged (started w) (GetUser h)) (Insert p) in
  let '(r, d) := insert_task (insert_fault env) (pg_text env)
                             (gen_random_uuid env) p (store w) in
  (r, mkWorld d (trace w1)).

Definition error_response (msg : string) : response :=
  mkResponse 400 CorsJson (ErrorJson msg).

(** The world right after a successful insert that left the table [d1]. *)
Definition created (h : string) (p : insert_payload) (d1 : db) (w : world)
  : world :=
  mkWorld d1 (trace (logged (logged (started w) (GetUser h)) (Insert p))).

(** The world once the completion call has been issued, and once its
    answer has been logged. *)
Definition called (env : Env) (t d : jsval) (w : world) : world :=
  logged w (CompletionCall (prompt_for env t d)).

Definition answered (env : Env) (t d : jsval) (w : world) : world :=
  logged (called env t d w) (Console LogLevel "AI Suggested Label:").

(** A row with the label the enrichment block derived for it, if any. *)
Definition labelled (l : option string) (data : task) : task :=
  match l with
  | Some l => set_label l data
  | None => data
  end.

(** The guard of the enrichment block. *)
Definition enabled (env : Env) : bool :=
  JsString.truthy (OPENAI_API_KEY env) && ENABLE_OPENAI env.

(** What the catch clause writes to the console. *)
Definition quota_notice (e : api_error) : event :=
  if isQuotaError e
  then Console WarnLevel "OpenAI quota exceeded - task created without AI label"
  else Console ErrorLevel "OpenAI error (task will be created without label)".

Definition caught (w : world) (e : api_error) : world :=
  logged (logged w (Console ErrorLevel "OpenAI API Error Details:"))
         (quota_notice e).

Definition no_first_choice : api_error :=
  mkApiError None None None
    "Cannot read properties of undefined (reading 'message')"
    "{}" None None None None.

(** The ways the enrichment phase can fail once the row [tid] exists in the
    table [d]: the client is switched off or has no key, the completion
    call rejects, the completion has no first choice, its content does not
    validate, or the label update comes back with an error. *)
Inductive enrichment_fails (env : Env) (prompt : string) (tid : uuid) (d : db)
  : Prop :=
| fails_disabled :
    enabled env = false -> enrichment_fails env prompt tid d
| fails_rejected (e : api_error) :
    chat_completions_create env prompt = Rejects e ->
    enrichment_fails env prompt tid d
| fails_no_choice :
    chat_completions_create env prompt = Resolves [] ->
    enrichment_fails env prompt tid d
| fails_invalid (c : option string) (rest : list (option string)) :
    chat_completions_create env prompt = Resolves (c :: rest) ->
    suggested c = None ->
    enrichment_fails env prompt tid d
| fails_update (c : option string) (rest : list (option string))
    (l : string) (e : pg_error) :
    chat_completions_create env prompt = Resolves (c :: rest) ->
    suggested c = Some l ->
    fst (update_label (update_fault env) tid l d) = inl e ->
    enrichment_fails env prompt tid d.

(** What the outer [try] throws before a credential is looked at, and
    failing that, at the credential check. *)
Definition thrown_without_credential (b : parsed) : exn :=
  match b with
  | Malformed why => SyntaxError why
  | Parsed JNull => TypeError "Cannot destructure property 'title' of null"
  | Parsed _ => Error "No authorization header"
  end.

Definition console_error_in_handler : event :=
  Console ErrorLevel "Error in create-task-with-ai:".

(** *** The first line of a text

    The handler has no notion of a line; these two functions spell out the
    specification's [first line of returned text], to compare it with what
    [suggested] reads. *)

Definition is_line_terminator (c : ascii) : bool :=
  let n := nat_of_ascii c in ((n =? 10) || (n =? 13))%nat.

(** The text before the first line terminator. *)
Fixpoint spec_first_line (s : string) : string :=
  match s with
  | EmptyString => EmptyString
  | String c r =>
      if is_line_terminator c then EmptyString
      else String c (spec_first_line r)
  end.

(** The text from the first line terminator on. *)
Fixpoint spec_further_lines (s : string) : string :=
  match s with
  | EmptyString => EmptyString
  | String c r => if is_line_terminator c then s else spec_further_lines r
  end.

(** White space only. *)
Fixpoint blank (s : string) : bool :=
  match s with
  | EmptyString => true
  | String c r => JsString.is_space c && blank r
  end.

(* ===================================================================== *)
(** ** A concrete deployment *)
(* ===================================================================== *)

Module Sample.

Definition alice : user := mkUser 7.

(** The identity service knows one session. *)
Definition sessions (authHeader : string) : option user :=
  if String.eqb authHeader "Bearer alice-token" then Some alice else None.

Definition answers (content : string) (prompt : string) : completion :=
  Resolves [Some content].

Definition quota_exceeded : api_error :=
  mkApiError (Some 429%Z) None None
    "You exceeded your current quota" "{}"
    (Some "insufficient_quota") None (Some "insufficient_quota") None.

Definition env_with (enable : option string) (model : string -> completion)
    (update_fault : option pg_error) : Env :=
  mkEnv (Some "sk-test") enable sessions None update_fault
        (fun n => 100 + n) model
        (fun _ => "[object Object]") (fun _ => "{}").

(** Enrichment on, the model answers ["Work "]. *)
Definition env_work : Env := env_with None (answers "Work ") None.

Definition env_disabled : Env :=
  env_with (Some "false") (answers "Work ") None.

(** The provider is out of quota. *)
Definition env_out_of_quota : Env :=
  env_with None (fun _ => Rejects quota_exceeded) None.

Definition unavailable : pg_error :=
  mkPgError "08006" "connection failure".

Definition older : task :=
  mkTask 3 (Some 7) "Water the plants" None None (Some "home") None
         (Some true) (Some 10%Z) (Some 10%Z).

Definition w0 : world := mkWorld (mkDb [older] 1000%Z 0) [].

Definition task_body (title : string) : parsed :=
  Parsed (JObj [("title", JStr title); ("description", JStr "before Friday")]).

Definition post (credential : option string) (b : parsed) : request :=
  mkRequest "POST" credential b.

Definition report : request :=
  post (Some "Bearer alice-token") (task_body "Send the quarterly report").

(** The label update is refused. *)
Definition env_update_down : Env :=
  env_with None (answers "Work ") (Some unavailable).

(** The row the insert of [report] returns in [w0]. *)
Definition report_row : task :=
  mkTask 100 (Some 7) "Send the quarterly report" (Some "before Friday")
         None None None (Some false) (Some 1000%Z) (Some 1000%Z).

Definition report_payload : insert_payload :=
  mkInsert (Some (JStr "Send the quarterly report"))
           (Some (JStr "before Friday")) false 7.

(** A body without a [title]. *)
Definition untitled : request :=
  post (Some "Bearer alice-token")
       (Parsed (JObj [("description", JStr "before Friday")])).

(** No [Authorization] header, and a body that is not JSON. *)
Definition anonymous_garbage : request :=
  post None (Malformed "Unexpected end of JSON input").

(** No [Authorization] header, a well-formed body. *)
Definition anonymous : request :=
  post None (task_body "Send the quarterly report").

(** A session the identity service does not know. *)
Definition stranger : request :=
  post (Some "Bearer mallory-token") (task_body "Send the quarterly report").

(** A known session, and a body that is not JSON. *)
Definition garbage : request :=
  post (Some "Bearer alice-token") (Malformed "Unexpected end of JSON input").

(** An empty title. *)
Definition blank_title : request :=
  post (Some "Bearer alice-token") (task_body EmptyString).

Definition blank_row : task :=
  mkTask 100 (Some 7) EmptyString (Some "before Friday")
         None None None (Some false) (Some 1000%Z) (Some 1000%Z).

Definition newline : string := String (ascii_of_nat 10) EmptyString.

(** A completion that explains itself on a second line. *)
Definition chatty : string :=
  ("work" ++ newline ++ "It is about a report.")%string.

(** A completion followed by an empty line. *)
Definition padded : string := ("Work" ++ newline ++ " ")%string.

(** The table once [report] has been inserted, one tick after [w0]. *)
Definition db_with_report : db :=
  mkDb [older; report_row] 1001%Z 1.

End Sample.

(** *** What one request does

    [outcome env req w r w' new]: the handler answers [r], leaves the world
    [w'], and [new] lists the events it appended.  The five cases are the
    five ways out of the callback: the preflight, a throw before the
    insert, an insert the store refuses, a task returned as inserted, and a
    task returned with its label. *)
Inductive outcome (env : Env) (req : request) (w : world)
  : response -> world -> list event -> Prop :=
| out_preflight :
    outcome env req w (mkResponse 204 CorsHeaders NoContent) w []
| out_thrown (e : exn) (w' : world) (new : list event) :
    store w' = store w ->
    writes new = [] ->
    completion_calls new = [] ->
    outcome env req w (error_response (message e)) w' new
| out_refused (p : insert_payload) (e : pg_error) (w' : world)
    (new : list event) :
    rows (store w') = rows (store w) ->
    writes new = [Insert p] ->
    completion_calls new = [] ->
    outcome env req w (error_response (pg_message e)) w' new
| out_created (p : insert_payload) (data : task) (w' : world)
    (new : list event) :
    rows (store w') = rows (store w) ++ [data] ->
    existsb (has_id (task_id data)) (rows (store w)) = false ->
    label data = None ->
    user_id data = Some (ins_user_id p) ->
    (writes new = [Insert p]
     \/ exists l : string,
          In l validLabels /\ writes new = [Insert p; Update (task_id data) l]) ->
    length (completion_calls new) <= 1 ->
    outcome env req w (json_response data) w' new
| out_labelled (p : insert_payload) (data : task) (l : string) (w' : world)
    (new : list event) :
    rows (store w') = rows (store w) ++ [set_label l data] ->
    existsb (has_id (task_id data)) (rows (store w)) = false ->
    In l validLabels ->
    user_id data = Some (ins_user_id p) ->
    writes new = [Insert p; Update (task_id data) l] ->
    length (completion_calls new) = 1 ->
    outcome env req w (json_response (set_label l data)) w' new.

(** Every label of the table is NULL or in the domain of the check
    constraint. *)
Definition labels_in_domain (d : db) : Prop :=
  Forall (fun r => label_check (label r) = true) (rows d).

(** [task_id] is a key of the table. *)
Definition task_id_is_key (d : db) : Prop :=
  NoDup (map task_id (rows d)).

(* ===================================================================== *)
(** ** More of the repository *)
(* ===================================================================== *)

(** *** [String.prototype.split] with a one-character separator *)

Module JsSplit.

(** [s.split(sep)]: the segments between the occurrences of [sep]; never
    an empty array, [""] splits into [[""]]. *)
Fixpoint split (sep : ascii) (s : string) : list string :=
  match s with
  | EmptyString => [EmptyString]
  | String c r =>
      if Ascii.eqb c sep then EmptyString :: split sep r
      else match split sep r with
           | segment :: more => String c segment :: more
           | [] => [String c EmptyString]
           end
  end.

(** [s.split(sep)[i]], [undefined] past the end. *)
Definition segment (sep : ascii) (i : nat) (s : string) : option string :=
  nth_error (split sep s) i.

Definition contains (c : ascii) (s : string) : bool :=
  existsb (Ascii.eqb c) (list_ascii_of_string s).

End JsSplit.

(** *** Computations over any world *)

Module Effects.

(** A computation over a world [W] that may throw an [E]. *)
Definition M (W E A : Type) : Type := W -> result E A * W.

Definition ret {W E A} (a : A) : M W E A := fun w => (Ok a, w).

Definition throw {W E A} (e : E) : M W E A := fun w => (Throw e, w).

Definition bind {W E A B} (c : M W E A) (k : A -> M W E B) : M W E B :=
  fun w =>
    match c w with
    | (Ok a, w') => k a w'
    | (Throw e, w') => (Throw e, w')
    end.

Declare Scope effects_scope.
Delimit Scope effects_scope with effects.
Notation "x <- c ;; k" := (bind c (fun x => k))
  (at level 61, c at next level, right associativity) : effects_scope.
Notation "c ;;; k" := (bind c (fun _ => k))
  (at level 61, right associativity) : effects_scope.

End Effects.

(** *** create-stripe-session: the checkout edge function *)

Module StripeSession.

Import Effects.
Local Open Scope effects_scope.

Record request : Type := mkRequest {
  method : string;
  authorization : option string;   (* req.headers.get("Authorization") *)
  origin : option string           (* req.headers.get("origin") *)
}.

Inductive content : Type :=
| NoContent
| UrlJson (url : option string)   (* JSON.stringify({ url: session.url }) *)
| ErrorJson (msg : string).       (* JSON.stringify({ error: msg }) *)

Record response : Type := mkResponse {
  status : Z;
  response_headers : headers;
  response_body : content
}.

Record user : Type := mkUser {
  id : string;
  email : option string
}.

(** What [supabase.auth.getUser(jwt)] resolves to: [{ data: { user },
    error }]. *)
Inductive auth_answer : Type :=
| AuthError (msg : string)
| AuthUser (found : option user).

(** The columns of [profiles] the handler selects, and the key it filters
    on. *)
Record profile : Type := mkProfile {
  profile_user_id : string;
  stripe_customer_id : option string;
  subscription_plan : option string
}.

(** [{ data, error }] of the profile query. *)
Record selected : Type := mkSelected {
  data : option profile;
  error : option pg_error
}.

(** The arguments of [stripe.customers.create]. *)
Record customer_params : Type := mkCustomer {
  customer_email : option string;
  customer_name : option string;
  customer_user_id : string            (* metadata.user_id *)
}.

(** The arguments of [stripe.checkout.sessions.create]; the mode is
    [subscription] and the quantity 1. *)
Record session_params : Type := mkSession {
  customer : string;
  price : string;
  success_url : string;
  cancel_url : string
}.

(** A Stripe call resolves, or rejects with an error that has a message. *)
Inductive stripe_answer (A : Type) : Type :=
| StripeRejects (msg : string)
| StripeResolves (a : A).
Arguments StripeRejects {A} msg.
Arguments StripeResolves {A} a.

Record Env : Type := mkEnv {
  STRIPE_PRICE_ID : option string;
  auth_getUser : string -> auth_answer;
  select_fault : option pg_error;
  update_fault : option pg_error;
  customers_create : customer_params -> stripe_answer string;      (* customer.id *)
  sessions_create : session_params -> stripe_answer (option string) (* session.url *)
}.

Inductive event : Type :=
| GetUser (jwt : string)
| SelectProfile (uid : string)
| CustomersCreate (p : customer_params)
| UpdateProfile (uid : string) (customerId : string)
| SessionsCreate (p : session_params)
| Console (lv : level) (text : string).

Record world : Type := mkWorld {
  profiles : list profile;
  trace : list event      (* oldest first *)
}.

Definition emit {E} (ev : event) : M world E unit :=
  fun w => (Ok tt, mkWorld (profiles w) (trace w ++ [ev])).

Definition console {E} (lv : level) (text : string) : M world E unit :=
  emit (Console lv text).

(** [req.headers.get("Authorization")?.split(" ")[1] ?? ""] *)
Definition token (req : request) : string :=
  match authorization req with
  | None => EmptyString
  | Some h =>
      match JsSplit.segment " " 1 h with
      | Some t => t
      | None => EmptyString
      end
  end.

Definition getUser {E} (env : Env) (jwt : string) : M world E auth_answer :=
  emit (GetUser jwt) ;;;
  ret (auth_getUser env jwt).

Definition owned_by (uid : string) (p : profile) : bool :=
  String.eqb (profile_user_id p) uid.

(** [.from("profiles").select("stripe_customer_id, subscription_plan")
    .eq("user_id", uid).single()] *)
Definition select_profile {E} (env : Env) (uid : string) : M world E selected :=
  emit (SelectProfile uid) ;;;
  fun w =>
    (Ok (match select_fault env with
         | Some e => mkSelected None (Some e)
         | None =>
             match filter (owned_by uid) (profiles w) with
             | [p] => mkSelected (Some p) None
             | _ => mkSelected None (Some not_a_single_row)
             end
         end), w).

Definition set_customer (customerId : string) (p : profile) : profile :=
  mkProfile (profile_user_id p) (Some customerId) (subscription_plan p).

(** [.from("profiles").update({ stripe_customer_id }).eq("user_id", uid)]:
    resolves to [{ error }]. *)
Definition update_profile {E} (env : Env) (uid customerId : string)
  : M world E (option pg_error) :=
  emit (UpdateProfile uid customerId) ;;;
  fun w =>
    match update_fault env with
    | Some e => (Ok (Some e), w)
    | None =>
        (Ok None,
         mkWorld (map (fun p => if owned_by uid p then set_customer customerId p
                                else p) (profiles w))
                 (trace w))
    end.

Definition stripe_customers_create (env : Env) (p : customer_params)
  : M world exn string :=
  emit (CustomersCreate p) ;;;
  match customers_create env p with
  | StripeRejects msg => throw (Error msg)
  | StripeResolves customerId => ret customerId
  end.

Definition stripe_sessions_create (env : Env) (p : session_params)
  : M world exn (option string) :=
  emit (SessionsCreate p) ;;;
  match sessions_create env p with
  | StripeRejects msg => throw (Error msg)
  | StripeResolves url => ret url
  end.

(** Lines 90-114: the body of [if (!stripeCustomerId)]. *)
Definition create_customer (env : Env) (user : user) (userEmail : option string)
  : M world exn string :=
  console LogLevel "Creating new Stripe customer..." ;;;
  (* profile.name was not selected: [name] is undefined *)
  customerId <- stripe_customers_create env
                  (mkCustomer userEmail None (id user)) ;;
  updateError <- update_profile env (id user) customerId ;;
  match updateError with
  | Some _ =>
      console ErrorLevel "Error updating profile with Stripe customer ID:"
  | None => ret tt
  end ;;;
  console LogLevel "Created Stripe customer" ;;;
  ret customerId.

(** Lines 87-114: the customer the session is for. *)
Definition customer_for (env : Env) (user : user) (userEmail : option string)
    (profile : profile) : M world exn string :=
  match stripe_customer_id profile with
  | Some existing =>
      if nonempty existing then ret existing
      else create_customer env user userEmail
  | None => create_customer env user userEmail
  end.

Definition price_not_configured : string :=
  "STRIPE_PRICE_ID is not configured. Please set it as a Supabase secret.".

(** The body of the [try]. *)
Definition try_block (env : Env) (req : request) : M world exn response :=
  console LogLevel "Authenticating user..." ;;;
  answer <- getUser env (token req) ;;
  match answer with
  | AuthError msg => throw (Error ("Authentication failed: " ++ msg))
  | AuthUser None => throw (Error "No user found")
  | AuthUser (Some user) =>
      console LogLevel "Looking for user_id" ;;;
      sel <- select_profile env (id user) ;;
      match error sel with
      | Some profileError =>
          console LogLevel "Profile error:" ;;;
          throw (PostgrestError profileError)
      | None =>
          match data sel with
          | None => throw (Error "No profile found")
          | Some profile =>
              console LogLevel "Found profile" ;;;
              again <- getUser env (id user) ;;
              let userEmail :=
                match again with
                | AuthUser (Some authUser) => email authUser
                | _ => None
                end in
              stripeCustomerId <- customer_for env user userEmail profile ;;
              match STRIPE_PRICE_ID env with
              | Some priceId =>
                  if nonempty priceId
                  then
                    let originUrl :=
                      match origin req with
                      | Some o => o
                      | None => "http://localhost:3000"
                      end in
                    url <- stripe_sessions_create env
                             (mkSession stripeCustomerId priceId
                                        (originUrl ++ "/profile?success=true")
                                        (originUrl ++ "/profile?canceled=true")) ;;
                    ret (mkResponse 200 CorsJson (UrlJson url))
                  else throw (Error price_not_configured)
              | None => throw (Error price_not_configured)
              end
          end
      end
  end.

(** The callback given to [Deno.serve]. *)
Definition serve (env : Env) (req : request) (w : world) : response * world :=
  if String.eqb (method req) "OPTIONS"
  then (mkResponse 204 CorsHeaders NoContent, w)
  else
    match try_block env req w with
    | (Ok r, w') => (r, w')
    | (Throw err, w') =>
        (mkResponse 400 CorsJson (ErrorJson (message err)),
         mkWorld (profiles w')
                 (trace w' ++ [Console ErrorLevel "Error in create-stripe-session:"]))
    end.

(** *** Reading a trace *)

Definition is_customer_creation (ev : event) : bool :=
  match ev with CustomersCreate _ => true | _ => false end.

Definition is_session_creation (ev : event) : bool :=
  match ev with SessionsCreate _ => true | _ => false end.

Definition is_profile_update (ev : event) : bool :=
  match ev with UpdateProfile _ _ => true | _ => false end.

Definition is_profile_read (ev : event) : bool :=
  match ev with SelectProfile _ => true | _ => false end.

Definition customer_creations (tr : list event) : list event :=
  filter is_customer_creation tr.
Definition session_creations (tr : list event) : list event :=
  filter is_session_creation tr.
Definition profile_updates (tr : list event) : list event :=
  filter is_profile_update tr.
Definition profile_reads (tr : list event) : list event :=
  filter is_profile_read tr.

End StripeSession.

(** A deployment of the checkout function. *)
Module StripeSample.

Import StripeSession.

Definition carol : user := mkUser "carol-uuid" (Some "carol@example.org").

(** The service-role client resolves carol's access token, and nothing
    else: a user id is not a token. *)
Definition sessions (jwt : string) : auth_answer :=
  if String.eqb jwt "carol-token" then AuthUser (Some carol)
  else AuthError "invalid JWT".

Definition env_with (priceId : option string) (update_fault : option pg_error)
  : Env :=
  mkEnv priceId sessions None update_fault
        (fun _ => StripeResolves "cus_1")
        (fun p => StripeResolves (Some "https://checkout.stripe.test/s_1")).

Definition env : Env := env_with (Some "price_1") None.

Definition fresh_profile : profile := mkProfile "carol-uuid" None (Some "free").

Definition other_profile : profile :=
  mkProfile "dave-uuid" (Some "cus_0") (Some "premium").

Definition w0 : world := mkWorld [other_profile; fresh_profile] [].

Definition checkout : request :=
  mkRequest "POST" (Some "Bearer carol-token") (Some "https://tasks.test").

End StripeSample.

(** What [authUser?.email] is after the second [getUser]. *)
Definition email_of (answer : StripeSession.auth_answer) : option string :=
  match answer with
  | StripeSession.AuthUser (Some authUser) => StripeSession.email authUser
  | _ => None
  end.

(** The customer the handler asks Stripe to create for [u]. *)
Definition customer_request (env : StripeSession.Env) (u : StripeSession.user)
  : StripeSession.customer_params :=
  StripeSession.mkCustomer
    (email_of (StripeSession.auth_getUser env (StripeSession.id u)))
    None (StripeSession.id u).


(** The profiles once [uid] has been given the customer [customerId]. *)
Definition with_customer (uid customerId : string)
    (ps : list StripeSession.profile) : list StripeSession.profile :=
  map (fun p => if StripeSession.owned_by uid p
                then StripeSession.set_customer customerId p else p) ps.

(** *** openai-chat: the chat edge function *)

Module OpenAIChat.

Import Effects.
Local Open Scope effects_scope.

(** Truthiness of a value read out of a parsed body. *)
Definition truthy (v : jsval) : bool :=
  match v with
  | None | Some JNull => false
  | Some (JBool b) => b
  | Some (JNum repr) => negb (String.eqb repr "0")
  | Some (JStr s) => nonempty s
  | Some (JArr _) | Some (JObj _) => true
  end.

(** [{ role: msg.role, content: msg.content }] *)
Record chat_message : Type := mkMessage {
  role : jsval;
  content : jsval
}.

(** [openaiRequest] *)
Record chat_request : Type := mkChatRequest {
  model : json;
  messages : list chat_message;
  temperature : json;
  max_tokens : jsval
}.

Record choice : Type := mkChoice {
  message_content : option string;     (* message?.content *)
  finish_reason : option string
}.

Record chat_completion : Type := mkCompletion {
  choices : list choice;
  completion_model : string;
  usage : jsval
}.

(** [error.response]: the upstream status and the fields of
    [response.data.error] the handler reads. *)
Record upstream : Type := mkUpstream {
  upstream_status : option Z;
  upstream_message : option string;
  upstream_code : jsval;
  upstream_type : jsval
}.

(** An error as the [catch] clause reads it: its message and its
    [response] property, if it has one.  The errors the [try] block throws
    by itself, the [SyntaxError] of [req.json()] and the [TypeError] of a
    property read, have none, and neither have the errors of the client
    made by [new OpenAI]. *)
Record thrown : Type := mkThrown {
  error_message : string;
  error_response : option upstream
}.

Inductive chat_answer : Type :=
| ChatRejects (e : thrown)
| ChatResolves (c : chat_completion).

(** [{ data: { user }, error }] of [auth.getUser()]; the user's fields are
    not read. *)
Inductive auth_answer : Type :=
| AuthError
| AuthUser (found : bool).

Record Env : Type := mkEnv {
  OPENAI_API_KEY : option string;
  auth_getUser : string -> auth_answer;
  chat_completions_create : chat_request -> chat_answer
}.

Inductive content_type : Type :=
| NoContent
| ErrorJson (msg : string)
| UpstreamErrorJson (msg : string) (code type : jsval)
| ChatJson (text : string) (model : string) (usage : jsval)
           (finish_reason : option string).

Record response : Type := mkResponse {
  status : Z;
  response_headers : headers;
  response_body : content_type
}.

(** Every response with a body carries [corsHeaders] and the JSON content
    type. *)
Definition json_response (status : Z) (b : content_type) : response :=
  mkResponse status CorsJson b.

Inductive event : Type :=
| GetUser (authHeader : string)
| CompletionCall (r : chat_request)
| Console (lv : level) (text : string).

Definition world : Type := list event.   (* the trace, oldest first *)

Definition emit {E} (ev : event) : M world E unit :=
  fun w => (Ok tt, w ++ [ev]).

Definition getUser {E} (env : Env) (authHeader : string)
  : M world E auth_answer :=
  emit (GetUser authHeader) ;;;
  ret (auth_getUser env authHeader).

Definition completions_create (env : Env) (r : chat_request)
  : M world thrown chat_completion :=
  emit (CompletionCall r) ;;;
  match chat_completions_create env r with
  | ChatRejects e => throw e
  | ChatResolves c => ret c
  end.

(** [await req.json()] *)
Definition req_json (req : request) : M world thrown json :=
  match body req with
  | Malformed why => throw (mkThrown why None)
  | Parsed v => ret v
  end.

(** [requestData.messages], the first property read: reading a property
    of [null] throws. *)
Definition read_messages (requestData : json) : M world thrown jsval :=
  match requestData with
  | JNull =>
      throw (mkThrown "Cannot read properties of null (reading 'messages')"
                      None)
  | _ => ret (get "messages" requestData)
  end.

(** [messages.map((msg) => ({ role: msg.role, content: msg.content }))] *)
Fixpoint map_messages (items : list json) : M world thrown (list chat_message) :=
  match items with
  | [] => ret []
  | JNull :: _ =>
      throw (mkThrown "Cannot read properties of null (reading 'role')" None)
  | msg :: more =>
      rest <- map_messages more ;;
      ret (mkMessage (get "role" msg) (get "content" msg) :: rest)
  end.

(** Lines 109-114: a truthy [prompt] becomes the only message, otherwise
    [messages] is taken as it is. *)
Definition chosen_messages (prompt messages : jsval) : jsval :=
  match prompt with
  | Some p =>
      if truthy prompt
      then Some (JArr [JObj [("role", JStr "user"); ("content", p)]])
      else messages
  | None => messages
  end.

(** [requestData.model || "gpt-4o-mini"] *)
Definition model_or_default (requestData : json) : json :=
  match get "model" requestData with
  | Some m => if truthy (Some m) then m else JStr "gpt-4o-mini"
  | None => JStr "gpt-4o-mini"
  end.

(** [requestData.temperature ?? 0.7] *)
Definition temperature_or_default (requestData : json) : json :=
  match get "temperature" requestData with
  | None | Some JNull => JNum "0.7"
  | Some t => t
  end.

(** Lines 148-169: the response built from a completion. *)
Definition respond (completion : chat_completion) : response :=
  match choices completion with
  | first :: _ =>
      match message_content first with
      | Some responseContent =>
          if nonempty responseContent
          then json_response 200
                 (ChatJson responseContent (completion_model completion)
                           (usage completion) (finish_reason first))
          else json_response 500 (ErrorJson "No response from OpenAI")
      | None => json_response 500 (ErrorJson "No response from OpenAI")
      end
  | [] => json_response 500 (ErrorJson "No response from OpenAI")
  end.

(** The body of the [try]. *)
Definition try_block (env : Env) (req : request) : M world thrown response :=
  match authorization req with
  | None => ret (json_response 401 (ErrorJson "No authorization header"))
  | Some authHeader =>
      if nonempty authHeader
      then
        answer <- getUser env authHeader ;;
        match answer with
        | AuthError | AuthUser false =>
            ret (json_response 401 (ErrorJson "Unauthorized"))
        | AuthUser true =>
            if JsString.truthy (OPENAI_API_KEY env)
            then
              requestData <- req_json req ;;
              given <- read_messages requestData ;;
              let prompt := get "prompt" requestData in
              if negb (truthy given) && negb (truthy prompt)
              then ret (json_response 400
                          (ErrorJson "Either 'messages' or 'prompt' is required"))
              else
                match chosen_messages prompt given with
                | Some (JArr (first :: more)) =>
                    mapped <- map_messages (first :: more) ;;
                    completion <-
                      completions_create env
                        (mkChatRequest (model_or_default requestData) mapped
                                       (temperature_or_default requestData)
                                       (get "max_tokens" requestData)) ;;
                    ret (respond completion)
                | _ => ret (json_response 400 (ErrorJson "Invalid messages format"))
                end
            else ret (json_response 500 (ErrorJson "OpenAI API key not configured"))
        end
      else ret (json_response 401 (ErrorJson "No authorization header"))
  end.

(** [a || b] on strings that may be missing. *)
Definition or_string (a : option string) (b : string) : string :=
  match a with
  | Some s => if nonempty s then s else b
  | None => b
  end.

(** A status that admits no body. *)
Definition null_body_status (s : Z) : bool :=
  ((s =? 101) || (s =? 204) || (s =? 205) || (s =? 304))%Z.

(** [new Response(body, { status, headers })] with a JSON body and a status
    that is not a literal.  The status is converted to an unsigned short;
    the constructor then throws a [RangeError] for a status that is neither
    101 nor within 200 to 599, and a [TypeError] for a status that admits
    no body. *)
Definition new_Response (status : Z) (b : content_type)
  : M world thrown response :=
  let s := (status mod 65536)%Z in
  if (((s <? 200) || (599 <? s)) && negb (s =? 101))%Z
  then throw (mkThrown ("The status provided ("
                        ++ NilZero.string_of_int (Z.to_int s)
                        ++ ") is not equal to 101 and outside the range"
                        ++ " [200, 599]")%string
                       None)
  else if null_body_status s
  then throw (mkThrown "Response with null body status cannot have body" None)
  else ret (json_response s b).

(** The [catch] clause.  Nothing catches what the constructor of its first
    response throws. *)
Definition on_error (error : thrown) : M world thrown response :=
  emit (Console ErrorLevel "Error in openai-chat function:") ;;;
  match error_response error with
  | Some r =>
      new_Response
        (match upstream_status r with
         | Some s => if nonzero s then s else 500%Z
         | None => 500%Z
         end)
        (UpstreamErrorJson
           (or_string (upstream_message r)
                      (or_string (Some (error_message error))
                                 "OpenAI API error"))
           (upstream_code r) (upstream_type r))
  | None =>
      ret (json_response 500
             (ErrorJson (or_string (Some (error_message error))
                                   "Internal server error")))
  end.

(** The callback given to [Deno.serve]: it returns a response, or lets the
    error of the catch clause escape. *)
Definition serve (env : Env) (req : request) : M world thrown response :=
  if String.eqb (method req) "OPTIONS"
  then ret (mkResponse 204 CorsHeaders NoContent)
  else if negb (String.eqb (method req) "POST")
  then ret (json_response 405 (ErrorJson "Method not allowed"))
  else
    fun w =>
      match try_block env req w with
      | (Ok r, w') => (Ok r, w')
      | (Throw error, w') => on_error error w'
      end.

Definition is_completion_call (ev : event) : bool :=
  match ev with CompletionCall _ => true | _ => false end.

Definition is_identity_check (ev : event) : bool :=
  match ev with GetUser _ => true | _ => false end.

Definition completion_calls (tr : list event) : list event :=
  filter is_completion_call tr.

Definition identity_checks (tr : list event) : list event :=
  filter is_identity_check tr.

End OpenAIChat.

(** A deployment of the chat function. *)
Module ChatSample.

Import OpenAIChat.

Definition known (authHeader : string) : auth_answer :=
  AuthUser (String.eqb authHeader "Bearer alice-token").

Definition hello : chat_completion :=
  mkCompletion [mkChoice (Some "Hello!") (Some "stop")]
               "gpt-4o-mini-2024-07-18" None.

Definition env : Env := mkEnv (Some "sk-test") known (fun _ => ChatResolves hello).

(** The client's error for a provider that answers 429: it has a message
    and no [response] property. *)
Definition rate_limited : thrown :=
  mkThrown "429 Rate limit reached" None.

Definition env_limited : Env :=
  mkEnv (Some "sk-test") known (fun _ => ChatRejects rate_limited).

Definition ask (b : parsed) : request :=
  Handler.mkRequest "POST" (Some "Bearer alice-token") b.

(** Both [prompt] and [messages], no randomness, an empty model name. *)
Definition both : json :=
  JObj [("prompt", JStr "Say hello");
        ("messages", JArr [JObj [("role", JStr "system");
                                 ("content", JStr "Be rude.")]]);
        ("temperature", JNum "0");
        ("model", JStr EmptyString)].

End ChatSample.

(** Is the request's credential present and accepted by the identity
    service? *)
Definition chat_accepted (env : OpenAIChat.Env) (req : request) : bool :=
  match authorization req with
  | Some h =>
      nonempty h
      && match OpenAIChat.auth_getUser env h with
         | OpenAIChat.AuthUser true => true
         | _ => false
         end
  | None => false
  end.

(** The request the chat function sends for the body [requestData] and the
    messages [msgs]. *)
Definition chat_request_for (requestData : json)
    (msgs : list OpenAIChat.chat_message) : OpenAIChat.chat_request :=
  OpenAIChat.mkChatRequest
    (OpenAIChat.model_or_default requestData) msgs
    (OpenAIChat.temperature_or_default requestData)
    (get "max_tokens" requestData).

(** The single message a [prompt] becomes. *)
Definition prompt_message (p : json) : OpenAIChat.chat_message :=
  OpenAIChat.mkMessage (Some (JStr "user")) (Some p).

(** *** TaskRow: the due-date cell *)

Module TaskRow.

(** [dateString.split("T")[0]] *)
Definition formatDate (dateString : string) : string :=
  match JsSplit.segment "T" 0 dateString with
  | Some date => date
  | None => EmptyString
  end.

(** [{task.due_date ? formatDate(task.due_date) : ""}] *)
Definition due_date_cell (due_date : option string) : string :=
  match due_date with
  | Some d => if nonempty d then formatDate d else EmptyString
  | None => EmptyString
  end.

End TaskRow.

(** *** useOpenAI: the hook that calls the chat function *)

Module UseOpenAI.

Import Effects.
Local Open Scope effects_scope.

(** The two pieces of React state. *)
Record state : Type := mkState {
  isLoading : bool;
  error : option string
}.

(** What the hook reads of a [fetch] response. *)
Record http_response : Type := mkHttp {
  ok : bool;
  statusText : string;
  json_body : parsed           (* await response.json() *)
}.

Inductive fetch_answer : Type :=
| FetchRejects (msg : string)
| FetchResolves (r : http_response).

Record Env : Type := mkEnv {
  access_token : option string;   (* of the current session, if any *)
  fetch : string -> json -> fetch_answer;   (* Authorization header, body *)
  js_ToString : json -> string
}.

Inductive event : Type :=
| Fetch (authorization : string) (sent : json).

Record world : Type := mkWorld {
  ui : state;
  trace : list event
}.

Definition setIsLoading {E} (b : bool) : M world E unit :=
  fun w => (Ok tt, mkWorld (mkState b (error (ui w))) (trace w)).

Definition setError {E} (e : option string) : M world E unit :=
  fun w => (Ok tt, mkWorld (mkState (isLoading (ui w)) e) (trace w)).

Definition failed_to_get : string := "Failed to get response from OpenAI".

(** Lines 564-572: the message of the error thrown for a response that is
    not [ok]. *)
Definition error_text (env : Env) (response : http_response) : string :=
  match json_body response with
  | Parsed JNull | Malformed _ =>
      (* response.json() rejected, or errorData.error threw *)
      if nonempty (statusText response) then statusText response
      else failed_to_get
  | Parsed errorData =>
      match get "error" errorData with
      | Some (JStr s) => if nonempty s then s else failed_to_get
      | Some other =>
          if OpenAIChat.truthy (Some other) then js_ToString env other
          else failed_to_get
      | None => failed_to_get
      end
  end.

(** The body of the [try]; an exception is represented by its message. *)
Definition attempt (env : Env) (request : json) : M world string json :=
  match access_token env with
  | None => throw "Not authenticated"
  | Some token =>
      (fun w => (Ok tt, mkWorld (ui w)
                                (trace w ++ [Fetch ("Bearer " ++ token) request]))) ;;;
      match fetch env ("Bearer " ++ token) request with
      | FetchRejects msg => throw msg
      | FetchResolves response =>
          if ok response
          then match json_body response with
               | Malformed why => throw why
               | Parsed data => ret data
               end
          else throw (error_text env response)
      end
  end.

(** [chat]: the [catch] clause records the message and rethrows, the
    [finally] clause clears the loading flag. *)
Definition chat (env : Env) (request : json) : M world string json :=
  setIsLoading true ;;;
  setError None ;;;
  fun w =>
    match attempt env request w with
    | (Ok data, w1) =>
        let '(_, w2) := @setIsLoading string false w1 in (Ok data, w2)
    | (Throw msg, w1) =>
        let errorMessage := if nonempty msg then msg else "An error occurred" in
        let '(_, w2) := @setError string (Some errorMessage) w1 in
        let '(_, w3) := @setIsLoading string false w2 in
        (Throw msg, w3)
    end.

End UseOpenAI.

(** *** The users table and its sync trigger *)

Module UsersSync.

(** The columns of [auth.users] the trigger function reads; [meta_name]
    is [raw_user_meta_data->>'name']. *)
Record auth_user : Type := mkAuthUser {
  id : string;
  email : option string;
  meta_name : option string
}.

(** A row of [public.users]. *)
Record user_row : Type := mkRow {
  user_id : string;
  user_email : string;
  name : option string;
  created_at : Z;
  updated_at : Z
}.

Definition not_null_email : pg_error :=
  mkPgError "23502"
    "null value in column email of relation users violates not-null constraint".

(** [split_part(s, '@', 1)] *)
Definition local_part (s : string) : string :=
  match JsSplit.segment "@" 0 s with
  | Some part => part
  | None => EmptyString
  end.

(** [coalesce(a, b)] *)
Definition coalesce {A} (a b : option A) : option A :=
  match a with
  | Some _ => a
  | None => b
  end.

(** [coalesce(new.raw_user_meta_data->>'name',
              split_part(new.email, '@', 1))] *)
Definition proposed_name (new : auth_user) : option string :=
  coalesce (meta_name new) (option_map local_part (email new)).

Definition is_user (uid : string) (r : user_row) : bool :=
  String.eqb (user_id r) uid.

(** [do update set email = excluded.email,
     name = coalesce(excluded.name, users.name), updated_at = now()] *)
Definition refresh (e : string) (excluded_name : option string) (now : Z)
    (r : user_row) : user_row :=
  mkRow (user_id r) e (coalesce excluded_name (name r)) (created_at r) now.

(** The conflict action applied to the table: the row of [uid] is
    refreshed, the others are left alone. *)
Definition upsert (uid e : string) (excluded_name : option string) (now : Z)
    (r : user_row) : user_row :=
  if is_user uid r then refresh e excluded_name now r else r.

(** The statement of [sync_user_to_users_table()], fired for the row
    [new] of [auth.users] at time [now]. *)
Definition sync_user_to_users_table (new : auth_user) (now : Z)
    (users : list user_row) : pg_error + list user_row :=
  match email new with
  | None => inl not_null_email
  | Some e =>
      if existsb (is_user (id new)) users
      then inr (map (upsert (id new) e (proposed_name new) now) users)
      else inr (users ++ [mkRow (id new) e (proposed_name new) now now])
  end.

Definition lookup (uid : string) (users : list user_row) : option user_row :=
  find (is_user uid) users.

Definition user_id_is_key (users : list user_row) : Prop :=
  NoDup (map user_id users).

End UsersSync.

(** A users table and a sign-up. *)
Module UsersSample.

Import UsersSync.

Definition erin : auth_user :=
  mkAuthUser "erin-uuid" (Some "erin@example.org") None.

Definition frank_row : user_row :=
  mkRow "frank-uuid" "frank@example.org" (Some "Frank") 5 5.

Definition erin_old : user_row :=
  mkRow "erin-uuid" "erin@old.example" (Some "Eri") 7 7.

Definition users : list user_row := [frank_row; erin_old].

End UsersSample.

(** The name the trigger function writes for a user with the email [e]. *)
Definition synced_name (new : UsersSync.auth_user) (e : string) : string :=
  match UsersSync.meta_name new with
  | Some n => n
  | None => UsersSync.local_part e
  end.

(** The effect of a later firing on a row: only [updated_at] moves. *)
Definition touched (uid : string) (now : Z) (r : UsersSync.user_row)
  : UsersSync.user_row :=
  if UsersSync.is_user uid r
  then UsersSync.mkRow (UsersSync.user_id r) (UsersSync.user_email r)
                       (UsersSync.name r) (UsersSync.created_at r) now
  else r.

(* ===================================================================== *)
(** * Properties *)
(* ===================================================================== *)

Example lower_Work : JsString.toLowerCase "Work " = "work ".
Proof. reflexivity. Qed.

Example trim_Work : JsString.trim (JsString.toLowerCase "Work ") = "work".
Proof. reflexivity. Qed.

Example quota_is_recognized : isQuotaError Sample.quota_exceeded = true.
Proof. reflexivity. Qed.

(** A provider out of quota costs the label, not the task. *)
Example out_of_quota_still_creates :
  fst (serve Sample.env_out_of_quota Sample.report Sample.w0)
  = json_response Sample.report_row.
Proof. reflexivity. Qed.

(** The happy path: the label comes back on the task. *)
Example report_is_labelled :
  fst (serve Sample.env_work Sample.report Sample.w0)
  = json_response (set_label "work" Sample.report_row).
Proof. reflexivity. Qed.

(** A preflight is answered before anything is read. *)
Example preflight :
  serve Sample.env_work
        (mkRequest "OPTIONS" None (Malformed "Unexpected end of JSON input"))
        Sample.w0
  = (mkResponse 204 CorsHeaders NoContent, Sample.w0).
Proof. reflexivity. Qed.

(* ===================================================================== *)
(** ** Running the handler, stage by stage *)
(* ===================================================================== *)

Section Stages.

Variables (env : Env) (req : request) (w : world).

Lemma run_malformed (why : string) :
  body req = Malformed why ->
  try_block env req w = (Throw (SyntaxError why), w).
Proof.
  intros Hb. unfold try_block, bind. rewrite Hb. reflexivity.
Qed.

Lemma run_null :
  body req = Parsed JNull ->
  try_block env req w =
  (Throw (TypeError "Cannot destructure property 'title' of null"), w).
Proof.
  intros Hb. unfold try_block, bind. rewrite Hb. reflexivity.
Qed.

Lemma run_no_header (v : json) (t d : jsval) :
  body req = Parsed v ->
  destructure v = Some (t, d) ->
  JsString.truthy (authorization req) = false ->
  try_block env req w = (Throw (Error "No authorization header"), started w).
Proof.
  intros Hb Hd Ha. unfold try_block, bind. rewrite Hb. cbn.
  rewrite Hd. cbn.
  destruct (authorization req) as [h|]; [|reflexivity].
  cbn in Ha. unfold nonempty. rewrite Ha. reflexivity.
Qed.

Lemma run_no_user (v : json) (t d : jsval) (h : string) :
  body req = Parsed v ->
  destructure v = Some (t, d) ->
  authorization req = Some h ->
  nonempty h = true ->
  auth_getUser env h = None ->
  try_block env req w =
  (Throw (Error "No user found"), logged (started w) (GetUser h)).
Proof.
  intros Hb Hd Ha Hh Hu. unfold try_block, bind. rewrite Hb. cbn.
  rewrite Hd. cbn. rewrite Ha, Hh. cbn. rewrite Hu. reflexivity.
Qed.

Lemma run_created (v : json) (t d : jsval) (h : string) (u : user) :
  body req = Parsed v ->
  destructure v = Some (t, d) ->
  authorization req = Some h ->
  nonempty h = true ->
  auth_getUser env h = Some u ->
  try_block env req w =
  match inserting env h (mkInsert t d false (id u)) w with
  | (inl error, w1) => (Throw (PostgrestError error), w1)
  | (inr data, w1) =>
      match enrich env t d data w1 with
      | (Ok (Some early), w2) => (Ok early, w2)
      | (Ok None, w2) => (Ok (json_response data), w2)
      | (Throw e, w2) => (Throw e, w2)
      end
  end.
Proof.
  intros Hb Hd Ha Hh Hu. unfold try_block, bind, inserting. rewrite Hb. cbn.
  rewrite Hd. cbn. rewrite Ha, Hh. cbn. rewrite Hu. cbn.
  destruct (insert_task _ _ _ _ _) as [[error|data] d1]; cbn; [reflexivity|].
  destruct (enrich _ _ _ _ _) as [[[early|]|e] w2]; reflexivity.
Qed.

End Stages.

(* ===================================================================== *)
(** ** The store statements *)
(* ===================================================================== *)

Section StoreFacts.

Variables (fault : option pg_error) (cast : json -> string) (gen : nat -> uuid).

(** A failed insert leaves the table as it was. *)
Lemma insert_task_error (p : insert_payload) (d d' : db) (e : pg_error) :
  insert_task fault cast gen p d = (inl e, d') -> rows d' = rows d.
Proof.
  unfold insert_task. destruct fault as [f|].
  - intros H. inversion H. reflexivity.
  - destruct (text_column cast (ins_title p)) as [ttl|].
    + destruct (existsb _ _); intros H; inversion H. reflexivity.
    + intros H. inversion H. reflexivity.
Qed.

(** A successful insert appends the returned row, and nothing else. *)
Lemma insert_task_row (p : insert_payload) (d d' : db) (row : task) :
  insert_task fault cast gen p d = (inr row, d') ->
  rows d' = rows d ++ [row]
  /\ existsb (has_id (task_id row)) (rows d) = false
  /\ user_id row = Some (ins_user_id p)
  /\ completed row = Some (ins_completed p)
  /\ label row = None
  /\ text_column cast (ins_title p) = Some (title row)
  /\ created_at row = Some (clock d)
  /\ updated_at row = Some (clock d).
Proof.
  unfold insert_task. destruct fault as [f|]; [discriminate|].
  destruct (text_column cast (ins_title p)) as [ttl|]; [|discriminate].
  destruct (existsb _ _) eqn:Hfresh; [discriminate|].
  intros H. inversion H. subst. cbn. auto 10.
Qed.

(** An insert whose title is [null] or [undefined] is refused. *)
Lemma insert_task_null_title (p : insert_payload) (d : db) :
  nullish (ins_title p) = true ->
  fst (insert_task fault cast gen p d)
  = inl (match fault with Some e => e | None => not_null_title end).
Proof.
  intros Hn. unfold insert_task. destruct fault as [f|]; [reflexivity|].
  destruct (ins_title p) as [[| | | | |]|]; cbn in Hn; try discriminate;
    reflexivity.
Qed.

Lemma filter_has_id_absent (tid : uuid) (l : list task) :
  existsb (has_id tid) l = false -> filter (has_id tid) l = [].
Proof.
  induction l as [|r l IH]; cbn; [reflexivity|].
  destruct (has_id tid r); cbn; [discriminate|exact IH].
Qed.

Lemma map_relabel_absent (tid : uuid) (l : string) (rs : list task) :
  existsb (has_id tid) rs = false -> map (relabel tid l) rs = rs.
Proof.
  induction rs as [|r rs IH]; cbn; [reflexivity|].
  unfold relabel at 1. destruct (has_id tid r); cbn; [discriminate|].
  intros H. rewrite (IH H). reflexivity.
Qed.

Lemma find_has_id_absent (tid : uuid) (l : list task) :
  existsb (has_id tid) l = false -> find (has_id tid) l = None.
Proof.
  induction l as [|r l IH]; cbn; [reflexivity|].
  destruct (has_id tid r); cbn; [discriminate|exact IH].
Qed.

Lemma has_id_self (t : task) : has_id (task_id t) t = true.
Proof. apply Nat.eqb_refl. Qed.

Lemma find_fresh_last (row new : task) (l : list task) :
  task_id new = task_id row ->
  existsb (has_id (task_id row)) l = false ->
  find (has_id (task_id row)) (l ++ [new]) = Some new.
Proof.
  intros Hid Hfresh. induction l as [|r l IH]; cbn in *.
  - unfold has_id. rewrite Hid, Nat.eqb_refl. reflexivity.
  - destruct (has_id (task_id row) r); [discriminate|]. exact (IH Hfresh).
Qed.

(** A failed update leaves the table as it was. *)
Lemma update_label_error (tid : uuid) (l : string) (d d' : db) (e : pg_error) :
  update_label fault tid l d = (inl e, d') -> rows d' = rows d.
Proof.
  unfold update_label. destruct fault as [f|].
  - intros H. inversion H. reflexivity.
  - destruct (filter (has_id tid) (rows d)) as [|t [|t' more]];
      try destruct (label_check (Some l)); intros H; inversion H; reflexivity.
Qed.

(** The update assigns [label] and no other column. *)
Lemma set_label_only (l : string) (t : task) :
  label (set_label l t) = Some l
  /\ task_id (set_label l t) = task_id t
  /\ user_id (set_label l t) = user_id t
  /\ title (set_label l t) = title t
  /\ description (set_label l t) = description t
  /\ image_url (set_label l t) = image_url t
  /\ due_date (set_label l t) = due_date t
  /\ completed (set_label l t) = completed t
  /\ created_at (set_label l t) = created_at t
  /\ updated_at (set_label l t) = updated_at t.
Proof. cbn. auto 12. Qed.

End StoreFacts.

(** Updating the row an insert has just returned, in the table that insert
    left behind: without a fault and with a label of the domain it
    succeeds, and rewrites that row alone. *)
Lemma update_after_insert (row : task) (l : string) (d : db) (old : list task) :
  rows d = old ++ [row] ->
  existsb (has_id (task_id row)) old = false ->
  label_check (Some l) = true ->
  update_label None (task_id row) l d
  = (inr (set_label l row),
     mkDb (old ++ [set_label l row]) (clock d + 1)%Z (draws d)).
Proof.
  intros Hrows Hfresh Hl. unfold update_label. rewrite Hrows.
  rewrite filter_app, (filter_has_id_absent _ _ Hfresh). cbn [filter app].
  rewrite has_id_self, Hl. cbn [app].
  rewrite map_app, (map_relabel_absent _ _ _ Hfresh). cbn.
  unfold relabel. rewrite has_id_self. reflexivity.
Qed.

(* ===================================================================== *)
(** ** The suggestion and the enrichment block *)
(* ===================================================================== *)

Lemma suggested_spec (c : option string) (l : string) :
  suggested c = Some l <-> normalize c = Some l /\ In l validLabels.
Proof.
  unfold suggested, validate, JsString.array_includes.
  destruct (normalize c) as [s|]; [|split; [discriminate|intros [H _]; discriminate]].
  destruct (existsb (String.eqb s) validLabels) eqn:Hin.
  - apply existsb_exists in Hin. destruct Hin as [x [Hx Heq]].
    apply String.eqb_eq in Heq. subst x.
    split.
    + intros H. inversion H. subst. auto.
    + intros [H _]. exact H.
  - split; [discriminate|].
    intros [H Hl]. inversion H. subst.
    assert (existsb (String.eqb l) validLabels = true) as Habs.
    { apply existsb_exists. exists l. split; [exact Hl|apply String.eqb_refl]. }
    rewrite Habs in Hin. discriminate.
Qed.

Lemma valid_label_cases (l : string) :
  In l validLabels ->
  l = "work" \/ l = "personal" \/ l = "priority" \/ l = "shopping" \/ l = "home".
Proof.
  cbn. intros H.
  repeat (destruct H as [H|H]; [symmetry in H; tauto|]). contradiction.
Qed.

Lemma valid_label_nonempty (l : string) : In l validLabels -> nonempty l = true.
Proof.
  intros H. apply valid_label_cases in H.
  repeat (destruct H as [H|H]; [subst; reflexivity|]). subst. reflexivity.
Qed.

(** The handler's list is the domain of the column's check constraint. *)
Lemma valid_label_in_domain (l : string) :
  In l validLabels -> label_check (Some l) = true.
Proof.
  intros H. apply valid_label_cases in H.
  repeat (destruct H as [H|H]; [subst; reflexivity|]). subst. reflexivity.
Qed.

Lemma on_openaiError_run {E A} (a : A) (e : api_error) (w : world) :
  @on_openaiError E A a e w = (Ok a, caught w e).
Proof.
  unfold on_openaiError, caught, quota_notice, bind, console, emit, ret, logged.
  cbn. destruct (isQuotaError e); reflexivity.
Qed.

Section Enrichment.

Variables (env : Env) (t d : jsval) (data : task) (w : world).

Lemma enrich_disabled :
  enabled env = false -> enrich env t d data w = (Ok None, w).
Proof.
  unfold enabled, enrich. intros H. rewrite H. reflexivity.
Qed.

Lemma enrich_rejected (e : api_error) :
  enabled env = true ->
  chat_completions_create env (prompt_for env t d) = Rejects e ->
  enrich env t d data w = (Ok None, caught (called env t d w) e).
Proof.
  unfold enabled, enrich. intros H Hc. rewrite H.
  unfold try_catch, completions_create, bind, emit. cbn.
  rewrite Hc. cbn.
  apply on_openaiError_run.
Qed.

Lemma enrich_no_choice :
  enabled env = true ->
  chat_completions_create env (prompt_for env t d) = Resolves [] ->
  enrich env t d data w = (Ok None, caught (called env t d w) no_first_choice).
Proof.
  unfold enabled, enrich. intros H Hc. rewrite H.
  unfold try_catch, completions_create, bind, emit. cbn.
  rewrite Hc. cbn.
  apply on_openaiError_run.
Qed.

Lemma enrich_invalid (c : option string) (rest : list (option string)) :
  enabled env = true ->
  chat_completions_create env (prompt_for env t d) = Resolves (c :: rest) ->
  suggested c = None ->
  enrich env t d data w = (Ok None, answered env t d w).
Proof.
  unfold enabled, enrich, suggested. intros H Hc Hs. rewrite H.
  unfold try_catch, completions_create, bind, emit. cbn.
  rewrite Hc. cbn. rewrite Hs. reflexivity.
Qed.

Lemma enrich_valid (c : option string) (rest : list (option string))
    (l : string) :
  enabled env = true ->
  chat_completions_create env (prompt_for env t d) = Resolves (c :: rest) ->
  suggested c = Some l ->
  enrich env t d data w =
  let w1 := logged (answered env t d w) (Update (task_id data) l) in
  match update_label (update_fault env) (task_id data) l (store w) with
  | (inl updateError, d') =>
      (Ok None,
       logged (mkWorld d' (trace w1))
              (Console ErrorLevel "Error updating task with label:"))
  | (inr updatedTask, d') =>
      (Ok (Some (json_response updatedTask)), mkWorld d' (trace w1))
  end.
Proof.
  unfold enabled, enrich, suggested. intros H Hc Hs. rewrite H.
  assert (nonempty l = true) as Hne.
  { apply valid_label_nonempty. apply (suggested_spec c l). exact Hs. }
  unfold try_catch, completions_create, bind, emit. cbn.
  rewrite Hc. cbn. rewrite Hs, Hne.
  unfold tasks_update, bind, emit. cbn.
  destruct (update_label _ _ _ _) as [[updateError|updatedTask] d']; reflexivity.
Qed.

(** The block never throws: whatever the completion call does, control
    leaves it with a response or falls through. *)
Lemma enrich_returns :
  exists (r : option response) (w' : world),
    enrich env t d data w = (Ok r, w').
Proof.
  destruct (enabled env) eqn:Hen.
  - destruct (chat_completions_create env (prompt_for env t d)) as [e|[|c rest]] eqn:Hc.
    + rewrite (enrich_rejected e Hen Hc). eauto.
    + rewrite (enrich_no_choice Hen Hc). eauto.
    + destruct (suggested c) as [l|] eqn:Hs.
      * rewrite (enrich_valid c rest l Hen Hc Hs). cbn.
        destruct (update_label _ _ _ _) as [[e|u] d']; eauto.
      * rewrite (enrich_invalid c rest Hen Hc Hs). eauto.
  - rewrite (enrich_disabled Hen). eauto.
Qed.

End Enrichment.

(* ===================================================================== *)
(** ** The whole request *)
(* ===================================================================== *)

Lemma serve_not_preflight (env : Env) (req : request) (w : world) :
  method req <> "OPTIONS" ->
  serve env req w =
  match try_block env req w with
  | (Ok r, w') => (r, w')
  | (Throw error, w') =>
      (error_response (message error),
       logged w' (Console ErrorLevel "Error in create-task-with-ai:"))
  end.
Proof.
  intros Hm. unfold serve.
  destruct (String.eqb_spec (method req) "OPTIONS") as [Heq|_];
    [contradiction|reflexivity].
Qed.

Section Created.

Variables (env : Env) (req : request) (w : world).
Variables (v : json) (t d : jsval) (h : string) (u : user).

Hypothesis Hmethod : method req <> "OPTIONS".
Hypothesis Hbody : body req = Parsed v.
Hypothesis Hfields : destructure v = Some (t, d).
Hypothesis Hheader : authorization req = Some h.
Hypothesis Htruthy : nonempty h = true.
Hypothesis Huser : auth_getUser env h = Some u.

Lemma serve_insert_error (e : pg_error) (d1 : db) :
  insert_task (insert_fault env) (pg_text env) (gen_random_uuid env)
              (mkInsert t d false (id u)) (store w) = (inl e, d1) ->
  try_block env req w
  = (Throw (PostgrestError e), created h (mkInsert t d false (id u)) d1 w).
Proof.
  intros Hins.
  rewrite (run_created env req w v t d h u Hbody Hfields Hheader Htruthy Huser).
  unfold inserting. rewrite Hins. reflexivity.
Qed.

Lemma serve_created (data : task) (d1 : db) :
  insert_task (insert_fault env) (pg_text env) (gen_random_uuid env)
              (mkInsert t d false (id u)) (store w) = (inr data, d1) ->
  serve env req w =
  match enrich env t d data (created h (mkInsert t d false (id u)) d1 w) with
  | (Ok (Some early), w2) => (early, w2)
  | (Ok None, w2) => (json_response data, w2)
  | (Throw e, w2) =>
      (error_response (message e),
       logged w2 (Console ErrorLevel "Error in create-task-with-ai:"))
  end.
Proof.
  intros Hins. rewrite (serve_not_preflight env req w Hmethod).
  rewrite (run_created env req w v t d h u Hbody Hfields Hheader Htruthy Huser).
  unfold inserting. rewrite Hins.
  fold (created h (mkInsert t d false (id u)) d1 w).
  destruct (enrich _ _ _ _ _) as [[[early|]|e] w2]; reflexivity.
Qed.

End Created.

(** A response the enrichment block returns is built from a task. *)
Lemma enrich_early_shape (env : Env) (t d : jsval) (data : task)
    (w w' : world) (early : response) :
  enrich env t d data w = (Ok (Some early), w') ->
  exists updatedTask : task, early = json_response updatedTask.
Proof.
  intros Hr.
  destruct (enabled env) eqn:Hen;
    [|rewrite (enrich_disabled env t d data w Hen) in Hr; discriminate].
  destruct (chat_completions_create env (prompt_for env t d))
    as [e|[|c rest]] eqn:Hc.
  - rewrite (enrich_rejected env t d data w e Hen Hc) in Hr. discriminate.
  - rewrite (enrich_no_choice env t d data w Hen Hc) in Hr. discriminate.
  - destruct (suggested c) as [l|] eqn:Hs.
    + rewrite (enrich_valid env t d data w c rest l Hen Hc Hs) in Hr.
      cbn zeta in Hr.
      destruct (update_label _ _ _ _) as [[e'|u'] d']; inversion Hr.
      exists u'. reflexivity.
    + rewrite (enrich_invalid env t d data w c rest Hen Hc Hs) in Hr.
      discriminate.
Qed.

(** The outer [try] completes only with a task in the response. *)
Lemma try_block_ok_shape (env : Env) (req : request) (w w' : world)
    (r : response) :
  try_block env req w = (Ok r, w') -> exists t : task, r = json_response t.
Proof.
  destruct (body req) as [why|v] eqn:Hb.
  { rewrite (run_malformed env req w why Hb). discriminate. }
  destruct (destructure v) as [[t d]|] eqn:Hd.
  2:{ destruct v; try discriminate.
      rewrite (run_null env req w Hb). discriminate. }
  destruct (JsString.truthy (authorization req)) eqn:Ha.
  2:{ rewrite (run_no_header env req w v t d Hb Hd Ha). discriminate. }
  destruct (authorization req) as [h|] eqn:Hh; [|discriminate].
  cbn in Ha. fold (nonempty h) in Ha.
  destruct (auth_getUser env h) as [u|] eqn:Hu.
  2:{ rewrite (run_no_user env req w v t d h Hb Hd Hh Ha Hu). discriminate. }
  rewrite (run_created env req w v t d h u Hb Hd Hh Ha Hu).
  destruct (inserting env h _ w) as [[e|data] w1]; [discriminate|].
  destruct (enrich env t d data w1) as [[[early|]|e] w2] eqn:Hrun;
    intros H; inversion H; subst.
  - apply (enrich_early_shape env t d data w1 w' r Hrun).
  - exists data. reflexivity.
Qed.

(** Every response of the handler: 204 without content to a preflight, 200
    with a task, or 400 with an error message. *)
Lemma serve_status (env : Env) (req : request) (w : world) :
  match response_body (fst (serve env req w)) with
  | NoContent => status (fst (serve env req w)) = 204%Z
  | TaskJson _ => status (fst (serve env req w)) = 200%Z
  | ErrorJson _ => status (fst (serve env req w)) = 400%Z
  end.
Proof.
  unfold serve. destruct (String.eqb (method req) "OPTIONS"); [reflexivity|].
  destruct (try_block env req w) as [[r|e] w'] eqn:Hrun; [|reflexivity].
  destruct (try_block_ok_shape env req w w' r Hrun) as [t ->]. reflexivity.
Qed.

(** A failed enrichment falls through to the statement after the block. *)
Lemma enrich_falls_through (env : Env) (t d : jsval) (data : task) (w : world) :
  enrichment_fails env (prompt_for env t d) (task_id data) (store w) ->
  fst (enrich env t d data w) = Ok None.
Proof.
  intros [Hoff | e Hc | Hc | c rest Hc Hs | c rest l e Hc Hs Hupd].
  - rewrite (enrich_disabled env t d data w Hoff). reflexivity.
  - destruct (enabled env) eqn:Hen.
    + rewrite (enrich_rejected env t d data w e Hen Hc). reflexivity.
    + rewrite (enrich_disabled env t d data w Hen). reflexivity.
  - destruct (enabled env) eqn:Hen.
    + rewrite (enrich_no_choice env t d data w Hen Hc). reflexivity.
    + rewrite (enrich_disabled env t d data w Hen). reflexivity.
  - destruct (enabled env) eqn:Hen.
    + rewrite (enrich_invalid env t d data w c rest Hen Hc Hs). reflexivity.
    + rewrite (enrich_disabled env t d data w Hen). reflexivity.
  - destruct (enabled env) eqn:Hen.
    + rewrite (enrich_valid env t d data w c rest l Hen Hc Hs). cbn zeta.
      destruct (update_label _ _ _ _) as [[e'|u'] d']; [reflexivity|].
      cbn in Hupd. discriminate.
    + rewrite (enrich_disabled env t d data w Hen). reflexivity.
Qed.

(* ===================================================================== *)
(** ** C1: enrichment is best effort *)
(* ===================================================================== *)

(** C1.  Take a request that reaches a successful store insert: it is not
    a preflight, its body parses and destructures, its credential is
    accepted, and the insert returns the row [data].  Then the response
    has status 200 whatever the enrichment phase does; and when that phase
    fails (client disabled, completion call throwing, missing or invalid
    suggestion, failing label update) the response is the task as created,
    whose label is unset. *)
Theorem C1_enrichment_is_best_effort
    (env : Env) (req : request) (w : world) (v : json) (t d : jsval)
    (h : string) (u : user) (data : task) (d1 : db) :
  method req <> "OPTIONS" ->
  body req = Parsed v ->
  destructure v = Some (t, d) ->
  authorization req = Some h ->
  nonempty h = true ->
  auth_getUser env h = Some u ->
  insert_task (insert_fault env) (pg_text env) (gen_random_uuid env)
              (mkInsert t d false (id u)) (store w) = (inr data, d1) ->
  status (fst (serve env req w)) = 200%Z
  /\ (enrichment_fails env (prompt_for env t d) (task_id data) d1 ->
      fst (serve env req w) = mkResponse 200 JsonAnyOrigin (TaskJson data)
      /\ label data = None).
Proof.
  intros Hm Hb Hf Hh Ht Hu Hins.
  rewrite (serve_created env req w v t d h u Hm Hb Hf Hh Ht Hu data d1 Hins).
  set (w1 := created h (mkInsert t d false (id u)) d1 w).
  split.
  - destruct (enrich_returns env t d data w1) as [r [w2 Hr]]. rewrite Hr.
    destruct r as [early|]; [|reflexivity].
    destruct (enrich_early_shape env t d data w1 w2 early Hr) as [t' ->].
    reflexivity.
  - intros Hfail.
    pose proof (enrich_falls_through env t d data w1 Hfail) as Hnone.
    destruct (enrich env t d data w1) as [[[early|]|e] w2];
      cbn in Hnone; try discriminate.
    split; [reflexivity|].
    apply (insert_task_row _ _ _ _ _ _ _ Hins).
Qed.

Lemma C1_witness :
  fst (serve Sample.env_update_down Sample.report Sample.w0)
  = mkResponse 200 JsonAnyOrigin (TaskJson Sample.report_row)
  /\ label Sample.report_row = None.
Proof.
  refine (proj2 (C1_enrichment_is_best_effort
                   Sample.env_update_down Sample.report Sample.w0
                   (JObj [("title", JStr "Send the quarterly report");
                          ("description", JStr "before Friday")])
                   (Some (JStr "Send the quarterly report"))
                   (Some (JStr "before Friday"))
                   "Bearer alice-token" Sample.alice Sample.report_row
                   (mkDb [Sample.older; Sample.report_row] 1001%Z 1)
                   _ _ _ _ _ _ _) _).
  - discriminate.
  - reflexivity.
  - reflexivity.
  - reflexivity.
  - reflexivity.
  - reflexivity.
  - reflexivity.
  - apply (fails_update _ _ _ _ (Some "Work ") [] "work" Sample.unavailable);
      reflexivity.
Defined.

(* ===================================================================== *)
(** ** C2: what a request with an accepted credential inserts *)
(* ===================================================================== *)


Lemma writes_app (a b : list event) : writes (a ++ b) = writes a ++ writes b.
Proof. apply filter_app. Qed.

Lemma completion_calls_app (a b : list event) :
  completion_calls (a ++ b) = completion_calls a ++ completion_calls b.
Proof. apply filter_app. Qed.





(* ===================================================================== *)
(** ** C3, C10, C6: the checks before the insert *)
(* ===================================================================== *)

Lemma destructure_not_null (v : json) :
  v <> JNull -> destructure v = Some (get "title" v, get "description" v).
Proof. destruct v; intros H; [contradiction| | | | |]; reflexivity. Qed.

(** Without a credential the outer [try] throws at once, in a world that
    gained at most the opening console line. *)
Lemma run_without_credential (env : Env) (req : request) (w : world) :
  JsString.truthy (authorization req) = false ->
  try_block env req w
  = (Throw (thrown_without_credential (body req)),
     match body req with
     | Malformed _ | Parsed JNull => w
     | Parsed _ => started w
     end).
Proof.
  intros Ha. destruct (body req) as [why|v] eqn:Hb.
  - apply run_malformed. exact Hb.
  - destruct v;
      try (apply (run_no_header env req w _ _ _ Hb eq_refl Ha)).
    apply run_null. exact Hb.
Qed.

(** C3, as the code has it.  A request that is not a preflight and carries
    no credential fails with status 400 and performs no store write: the
    table is untouched and no insert or update is issued.  The error is
    the missing-credential one exactly when the body parses to a value
    other than [null]; a body that does not parse, or parses to [null],
    fails earlier, with its own error. *)
Theorem C3_missing_credential
    (env : Env) (req : request) (w : world) :
  method req <> "OPTIONS" ->
  JsString.truthy (authorization req) = false ->
  fst (try_block env req w) = Throw (thrown_without_credential (body req))
  /\ fst (serve env req w)
     = error_response (message (thrown_without_credential (body req)))
  /\ store (snd (serve env req w)) = store w
  /\ writes (trace (snd (serve env req w))) = writes (trace w).
Proof.
  intros Hm Ha.
  rewrite (serve_not_preflight env req w Hm).
  rewrite (run_without_credential env req w Ha). cbn.
  repeat split; destruct (body req) as [why|[]]; cbn;
    try reflexivity;
    rewrite !writes_app; cbn; rewrite !app_nil_r; reflexivity.
Qed.

Lemma C3_witness :
  fst (try_block Sample.env_work Sample.anonymous Sample.w0)
  = Throw (Error "No authorization header")
  /\ fst (serve Sample.env_work Sample.anonymous Sample.w0)
     = error_response "No authorization header"
  /\ store (snd (serve Sample.env_work Sample.anonymous Sample.w0))
     = store Sample.w0
  /\ writes (trace (snd (serve Sample.env_work Sample.anonymous Sample.w0)))
     = writes (trace Sample.w0).
Proof.
  apply (C3_missing_credential Sample.env_work Sample.anonymous Sample.w0).
  - discriminate.
  - reflexivity.
Defined.

(** A POST without an [Authorization] header whose body is not JSON fails
    with the parser's error, not with the missing-credential one. *)
Lemma C3_counterexample :
  method Sample.anonymous_garbage = "POST"
  /\ authorization Sample.anonymous_garbage = None
  /\ fst (try_block Sample.env_work Sample.anonymous_garbage Sample.w0)
     = Throw (SyntaxError "Unexpected end of JSON input")
  /\ fst (try_block Sample.env_work Sample.anonymous_garbage Sample.w0)
     <> Throw (Error "No authorization header")
  /\ fst (serve Sample.env_work Sample.anonymous_garbage Sample.w0)
     <> error_response "No authorization header".
Proof. repeat split; discriminate. Qed.

(** The missing-credential error is thrown only once the body has parsed. *)
Lemma missing_credential_needs_a_parsed_body
    (env : Env) (req : request) (w : world) :
  fst (try_block env req w) = Throw (Error "No authorization header") ->
  exists v : json, body req = Parsed v /\ v <> JNull.
Proof.
  destruct (body req) as [why|v] eqn:Hb.
  - rewrite (run_malformed env req w why Hb). discriminate.
  - intros H. exists v. split; [reflexivity|].
    intros ->. rewrite (run_null env req w Hb) in H. discriminate.
Qed.

(** C10, as the code has it.  The body is parsed before the credential is
    looked at.  A request that is not a preflight and whose body is not
    valid JSON fails with the parser's error, status 400, in a world whose
    table is untouched and in which no call was made, whatever its
    [Authorization] header; and the missing-credential error is the outcome
    only of requests whose body parses. *)
Theorem C10_body_is_parsed_first
    (env : Env) (req : request) (w : world) :
  method req <> "OPTIONS" ->
  (forall why : string,
     body req = Malformed why ->
     try_block env req w = (Throw (SyntaxError why), w)
     /\ serve env req w
        = (error_response why, logged w console_error_in_handler)
     /\ store (snd (serve env req w)) = store w
     /\ writes (trace (snd (serve env req w))) = writes (trace w))
  /\ (fst (try_block env req w) = Throw (Error "No authorization header") ->
      exists v : json, body req = Parsed v).
Proof.
  intros Hm. split.
  - intros why Hb.
    rewrite (serve_not_preflight env req w Hm).
    rewrite (run_malformed env req w why Hb). cbn.
    repeat split.
    rewrite writes_app. cbn. apply app_nil_r.
  - intros Hthrown.
    destruct (missing_credential_needs_a_parsed_body env req w Hthrown)
      as [v [Hv _]].
    exists v. exact Hv.
Qed.

Lemma C10_witness :
  serve Sample.env_work Sample.garbage Sample.w0
  = (error_response "Unexpected end of JSON input",
     logged Sample.w0 console_error_in_handler)
  /\ serve Sample.env_work Sample.anonymous_garbage Sample.w0
     = (error_response "Unexpected end of JSON input",
        logged Sample.w0 console_error_in_handler)
  /\ exists v : json, body Sample.anonymous = Parsed v.
Proof.
  split; [|split].
  - refine (proj1 (proj2 (proj1 (C10_body_is_parsed_first
                                   Sample.env_work Sample.garbage Sample.w0 _)
                                "Unexpected end of JSON input" _)));
      [discriminate|reflexivity].
  - refine (proj1 (proj2 (proj1 (C10_body_is_parsed_first
                                   Sample.env_work Sample.anonymous_garbage
                                   Sample.w0 _)
                                "Unexpected end of JSON input" _)));
      [discriminate|reflexivity].
  - refine (proj2 (C10_body_is_parsed_first
                     Sample.env_work Sample.anonymous Sample.w0 _) _);
      [discriminate|reflexivity].
Defined.

(** A preflight whose body is not JSON: it is answered 204 before the body
    is read, so no body-parse error is reported. *)
Lemma C10_counterexample :
  body (mkRequest "OPTIONS" (Some "Bearer alice-token")
                  (Malformed "Unexpected end of JSON input"))
  = Malformed "Unexpected end of JSON input"
  /\ serve Sample.env_work
           (mkRequest "OPTIONS" (Some "Bearer alice-token")
                      (Malformed "Unexpected end of JSON input"))
           Sample.w0
     = (mkResponse 204 CorsHeaders NoContent, Sample.w0)
  /\ fst (serve Sample.env_work
                (mkRequest "OPTIONS" (Some "Bearer alice-token")
                           (Malformed "Unexpected end of JSON input"))
                Sample.w0)
     <> error_response "Unexpected end of JSON input".
Proof. repeat split. discriminate. Qed.

(** C6, as the code has it.  For a request that is not a preflight and
    whose body parses to a value other than [null]: an absent (or empty)
    credential fails with the message [No authorization header], a
    credential the identity service rejects fails with the message
    [No user found]; the two messages differ, and both responses carry
    status 400, the status of every error response of the handler. *)
Theorem C6_credential_errors
    (env : Env) (req : request) (w : world) (v : json) :
  method req <> "OPTIONS" ->
  body req = Parsed v ->
  v <> JNull ->
  match authorization req with
  | None =>
      fst (serve env req w) = error_response "No authorization header"
  | Some h =>
      if nonempty h
      then match auth_getUser env h with
           | None => fst (serve env req w) = error_response "No user found"
           | Some _ => True
           end
      else fst (serve env req w) = error_response "No authorization header"
  end
  /\ error_response "No authorization header" <> error_response "No user found"
  /\ status (error_response "No authorization header") = 400%Z
  /\ status (error_response "No user found") = 400%Z
  /\ match response_body (fst (serve env req w)) with
     | ErrorJson _ => status (fst (serve env req w)) = 400%Z
     | _ => True
     end.
Proof.
  intros Hm Hb Hv.
  pose proof (destructure_not_null v Hv) as Hd.
  repeat split; try discriminate.
  - rewrite (serve_not_preflight env req w Hm).
    destruct (authorization req) as [h|] eqn:Hh.
    + destruct (nonempty h) eqn:Hne.
      * destruct (auth_getUser env h) as [u|] eqn:Hu; [exact I|].
        rewrite (run_no_user env req w v _ _ h Hb Hd Hh Hne Hu). reflexivity.
      * rewrite (run_no_header env req w v _ _ Hb Hd); [reflexivity|].
        rewrite Hh. exact Hne.
    + rewrite (run_no_header env req w v _ _ Hb Hd); [reflexivity|].
      rewrite Hh. reflexivity.
  - pose proof (serve_status env req w) as Hs.
    destruct (response_body (fst (serve env req w))); auto.
Qed.

Lemma C6_witness :
  fst (serve Sample.env_work Sample.stranger Sample.w0)
  = error_response "No user found"
  /\ fst (serve Sample.env_work Sample.anonymous Sample.w0)
     = error_response "No authorization header".
Proof.
  split.
  - refine (proj1 (C6_credential_errors Sample.env_work Sample.stranger
                     Sample.w0
                     (JObj [("title", JStr "Send the quarterly report");
                            ("description", JStr "before Friday")]) _ _ _));
      [discriminate|reflexivity|discriminate].
  - refine (proj1 (C6_credential_errors Sample.env_work Sample.anonymous
                     Sample.w0
                     (JObj [("title", JStr "Send the quarterly report");
                            ("description", JStr "before Friday")]) _ _ _));
      [discriminate|reflexivity|discriminate].
Defined.

(** A credential the identity service rejects is answered with status 400,
    not 401, and so is a body that is not JSON. *)
Lemma C6_counterexample :
  auth_getUser Sample.env_work "Bearer mallory-token" = None
  /\ status (fst (serve Sample.env_work Sample.stranger Sample.w0)) = 400%Z
  /\ status (fst (serve Sample.env_work Sample.stranger Sample.w0)) <> 401%Z
  /\ status (fst (serve Sample.env_work Sample.garbage Sample.w0))
     = status (fst (serve Sample.env_work Sample.stranger Sample.w0)).
Proof. repeat split. discriminate. Qed.

(* ===================================================================== *)
(** ** C7: the title is required *)
(* ===================================================================== *)

(** C7, as the code has it.  [title text not null]: a creation request
    (not a preflight, body parsed, credential accepted) whose title is
    absent, that is [undefined] or [null], has its insert refused, with
    the not-null violation unless the store fails with an error of its
    own; the handler throws that error, answers 400 with its message and
    no task, and the table is unchanged. *)
Theorem C7_title_is_required
    (env : Env) (req : request) (w : world) (v : json) (t d : jsval)
    (h : string) (u : user) :
  method req <> "OPTIONS" ->
  body req = Parsed v ->
  destructure v = Some (t, d) ->
  nullish t = true ->
  authorization req = Some h ->
  nonempty h = true ->
  auth_getUser env h = Some u ->
  let refusal :=
    match insert_fault env with Some f => f | None => not_null_title end in
  fst (insert_task (insert_fault env) (pg_text env) (gen_random_uuid env)
                   (mkInsert t d false (id u)) (store w)) = inl refusal
  /\ fst (try_block env req w) = Throw (PostgrestError refusal)
  /\ fst (serve env req w) = error_response (pg_message refusal)
  /\ rows (store (snd (serve env req w))) = rows (store w).
Proof.
  intros Hm Hb Hf Hn Hh Ht Hu refusal.
  pose proof (insert_task_null_title (insert_fault env) (pg_text env)
                (gen_random_uuid env) (mkInsert t d false (id u)) (store w) Hn)
    as Hins.
  fold refusal in Hins.
  destruct (insert_task (insert_fault env) (pg_text env) (gen_random_uuid env)
                        (mkInsert t d false (id u)) (store w))
    as [r d1] eqn:Hrun.
  cbn in Hins. subst r.
  rewrite (serve_not_preflight env req w Hm).
  rewrite (serve_insert_error env req w v t d h u Hb Hf Hh Ht Hu refusal d1 Hrun).
  cbn. repeat split.
  apply (insert_task_error _ _ _ _ _ _ _ Hrun).
Qed.

Lemma C7_witness :
  fst (serve Sample.env_work Sample.untitled Sample.w0)
  = error_response (pg_message not_null_title)
  /\ rows (store (snd (serve Sample.env_work Sample.untitled Sample.w0)))
     = rows (store Sample.w0).
Proof.
  refine (proj2 (proj2 (C7_title_is_required
                          Sample.env_work Sample.untitled Sample.w0
                          (JObj [("description", JStr "before Friday")])
                          None (Some (JStr "before Friday"))
                          "Bearer alice-token" Sample.alice
                          _ _ _ _ _ _ _))).
  - discriminate.
  - reflexivity.
  - reflexivity.
  - reflexivity.
  - reflexivity.
  - reflexivity.
  - reflexivity.
Defined.

(** An empty title is not refused: the row is inserted and returned. *)
Lemma C7_counterexample :
  body Sample.blank_title = Sample.task_body EmptyString
  /\ fst (serve Sample.env_disabled Sample.blank_title Sample.w0)
     = mkResponse 200 JsonAnyOrigin (TaskJson Sample.blank_row)
  /\ title Sample.blank_row = EmptyString
  /\ rows (store (snd (serve Sample.env_disabled Sample.blank_title Sample.w0)))
     = rows (store Sample.w0) ++ [Sample.blank_row].
Proof. repeat split. Qed.

(* ===================================================================== *)
(** ** C8: the configuration switch *)
(* ===================================================================== *)

Lemma switched_off (env : Env) :
  ENABLE_OPENAI_variable env = Some "false" -> enabled env = false.
Proof.
  intros H. unfold enabled, ENABLE_OPENAI. rewrite H. cbn.
  apply andb_false_r.
Qed.

(** C8.  With [ENABLE_OPENAI] set to ["false"], no request makes a
    completion call, and a response that carries a task carries it without
    a label, the very row the table holds under that id. *)
Theorem C8_disabled_enrichment
    (env : Env) (req : request) (w : world) :
  ENABLE_OPENAI_variable env = Some "false" ->
  completion_calls (trace (snd (serve env req w))) = completion_calls (trace w)
  /\ match response_body (fst (serve env req w)) with
     | TaskJson t =>
         label t = None
         /\ lookup (task_id t) (store (snd (serve env req w))) = Some t
     | _ => True
     end.
Proof.
  intros Hoff. apply switched_off in Hoff.
  unfold serve. destruct (String.eqb (method req) "OPTIONS"); [cbn; auto|].
  destruct (body req) as [why|v] eqn:Hb.
  { rewrite (run_malformed env req w why Hb). cbn.
    rewrite completion_calls_app. cbn. rewrite app_nil_r. auto. }
  destruct (destructure v) as [[t d]|] eqn:Hd.
  2:{ destruct v; try discriminate.
      rewrite (run_null env req w Hb). cbn.
      rewrite completion_calls_app. cbn. rewrite app_nil_r. auto. }
  destruct (JsString.truthy (authorization req)) eqn:Ha.
  2:{ rewrite (run_no_header env req w v t d Hb Hd Ha). cbn.
      rewrite !completion_calls_app. cbn. rewrite !app_nil_r. auto. }
  destruct (authorization req) as [h|] eqn:Hh; [|discriminate].
  cbn in Ha. fold (nonempty h) in Ha.
  destruct (auth_getUser env h) as [u|] eqn:Hu.
  2:{ rewrite (run_no_user env req w v t d h Hb Hd Hh Ha Hu). cbn.
      rewrite !completion_calls_app. cbn. rewrite !app_nil_r. auto. }
  rewrite (run_created env req w v t d h u Hb Hd Hh Ha Hu).
  unfold inserting.
  destruct (insert_task (insert_fault env) (pg_text env) (gen_random_uuid env)
                        (mkInsert t d false (id u)) (store w))
    as [[e|data] d1] eqn:Hins.
  - cbn. rewrite !completion_calls_app. cbn. rewrite !app_nil_r. auto.
  - rewrite (enrich_disabled env t d data _ Hoff). cbn.
    rewrite !completion_calls_app. cbn. rewrite !app_nil_r.
    destruct (insert_task_row _ _ _ _ _ _ _ Hins)
      as (Hrows & Hfresh & _ & _ & Hlabel & _).
    repeat split; auto.
    unfold lookup. rewrite Hrows.
    apply find_fresh_last; auto.
Qed.

Lemma C8_witness :
  completion_calls
    (trace (snd (serve Sample.env_disabled Sample.report Sample.w0)))
  = completion_calls (trace Sample.w0)
  /\ label Sample.report_row = None
  /\ lookup (task_id Sample.report_row)
            (store (snd (serve Sample.env_disabled Sample.report Sample.w0)))
     = Some Sample.report_row.
Proof.
  apply (C8_disabled_enrichment Sample.env_disabled Sample.report Sample.w0).
  reflexivity.
Defined.

(* ===================================================================== *)
(** ** C5: the whole content is normalized, not its first line *)
(* ===================================================================== *)

Local Open Scope string_scope.

Lemma toLowerCase_app (a b : string) :
  JsString.toLowerCase (a ++ b)
  = JsString.toLowerCase a ++ JsString.toLowerCase b.
Proof.
  induction a as [|c a IH]; cbn; [reflexivity|]. rewrite IH. reflexivity.
Qed.

Lemma lower_char_space (c : ascii) :
  JsString.is_space c = true -> JsString.lower_char c = c.
Proof.
  destruct c as [[] [] [] [] [] [] [] []]; cbn; intros H;
    try discriminate; reflexivity.
Qed.

Lemma toLowerCase_blank (b : string) :
  blank b = true -> JsString.toLowerCase b = b.
Proof.
  induction b as [|c b IH]; cbn; [reflexivity|].
  intros H. apply andb_prop in H. destruct H as [Hc Hb].
  rewrite (lower_char_space c Hc), (IH Hb). reflexivity.
Qed.

Lemma trimEnd_blank (b : string) :
  blank b = true -> JsString.trimEnd b = EmptyString.
Proof.
  induction b as [|c b IH]; cbn; [reflexivity|].
  intros H. apply andb_prop in H. destruct H as [Hc Hb].
  rewrite (IH Hb), Hc. reflexivity.
Qed.

Lemma trimStart_blank (b : string) :
  blank b = true -> JsString.trimStart b = EmptyString.
Proof.
  induction b as [|c b IH]; cbn; [reflexivity|].
  intros H. apply andb_prop in H. destruct H as [Hc Hb].
  rewrite Hc. exact (IH Hb).
Qed.

Lemma trimEnd_app_blank (a b : string) :
  blank b = true -> JsString.trimEnd (a ++ b) = JsString.trimEnd a.
Proof.
  intros Hb. induction a as [|c a IH]; cbn.
  - apply trimEnd_blank. exact Hb.
  - rewrite IH. reflexivity.
Qed.

Lemma trimStart_app (a b : string) :
  JsString.trimStart (a ++ b)
  = if blank a then JsString.trimStart b else JsString.trimStart a ++ b.
Proof.
  induction a as [|c a IH]; cbn; [reflexivity|].
  destruct (JsString.is_space c); cbn; [exact IH|reflexivity].
Qed.

(** White space appended to a text is trimmed away. *)
Lemma trim_app_blank (a b : string) :
  blank b = true -> JsString.trim (a ++ b) = JsString.trim a.
Proof.
  intros Hb. unfold JsString.trim. rewrite trimStart_app.
  destruct (blank a) eqn:Ha.
  - rewrite (trimStart_blank b Hb), (trimStart_blank a Ha). reflexivity.
  - apply trimEnd_app_blank. exact Hb.
Qed.

Lemma first_and_further_lines (s : string) :
  s = spec_first_line s ++ spec_further_lines s.
Proof.
  induction s as [|c s IH]; cbn; [reflexivity|].
  destruct (is_line_terminator c); cbn; [reflexivity|].
  rewrite <- IH. reflexivity.
Qed.

(** C5, as the code has it.  The handler normalizes the whole content of
    the completion, not its first line: a label of the five is produced
    exactly when the entire content, lower-cased and trimmed, equals it.
    Hence a completion whose first line normalizes to a label produces
    that label provided its further lines are blank. *)
Theorem C5_whole_content_is_normalized (content l : string) :
  In l validLabels ->
  (suggested (Some content) = Some l
   <-> JsString.trim (JsString.toLowerCase content) = l)
  /\ (JsString.trim (JsString.toLowerCase (spec_first_line content)) = l ->
      blank (spec_further_lines content) = true ->
      suggested (Some content) = Some l).
Proof.
  intros Hl.
  assert (suggested (Some content) = Some l
          <-> JsString.trim (JsString.toLowerCase content) = l) as Hiff.
  { rewrite suggested_spec. cbn. split.
    - intros [H _]. inversion H. reflexivity.
    - intros H. rewrite H. auto. }
  split; [exact Hiff|].
  intros Hfirst Hblank. apply Hiff.
  rewrite (first_and_further_lines content) at 1.
  rewrite toLowerCase_app, (toLowerCase_blank _ Hblank).
  rewrite (trim_app_blank _ _ Hblank). exact Hfirst.
Qed.

Lemma C5_witness :
  suggested (Some Sample.padded) = Some "work".
Proof.
  refine (proj2 (C5_whole_content_is_normalized Sample.padded "work" _) _ _).
  - cbn. auto.
  - reflexivity.
  - reflexivity.
Defined.

(** The first line of this completion normalizes to ["work"], one of the
    five labels, and yet no label is produced, because a second line
    follows. *)
Lemma C5_counterexample :
  In "work" validLabels
  /\ JsString.trim (JsString.toLowerCase (spec_first_line Sample.chatty))
     = "work"
  /\ suggested (Some Sample.chatty) = None
  /\ suggested (Some Sample.chatty) <> Some "work".
Proof. repeat split; [cbn; auto|discriminate]. Qed.

(* ===================================================================== *)
(** ** C4: which label is stored *)
(* ===================================================================== *)

(** Lower-casing neither makes nor unmakes white space. *)
Lemma is_space_lower_char (c : ascii) :
  JsString.is_space (JsString.lower_char c) = JsString.is_space c.
Proof. destruct c as [[] [] [] [] [] [] [] []]; reflexivity. Qed.

Lemma trimStart_toLowerCase (s : string) :
  JsString.trimStart (JsString.toLowerCase s)
  = JsString.toLowerCase (JsString.trimStart s).
Proof.
  induction s as [|c s IH]; cbn; [reflexivity|].
  rewrite is_space_lower_char.
  destruct (JsString.is_space c); [exact IH|reflexivity].
Qed.

Lemma trimEnd_toLowerCase (s : string) :
  JsString.trimEnd (JsString.toLowerCase s)
  = JsString.toLowerCase (JsString.trimEnd s).
Proof.
  induction s as [|c s IH]; cbn; [reflexivity|].
  rewrite IH, is_space_lower_char.
  destruct (JsString.trimEnd s); cbn;
    [destruct (JsString.is_space c); reflexivity|reflexivity].
Qed.

(** The white space [trimStart] removes. *)
Lemma trimStart_splits (s : string) :
  exists before : string,
    blank before = true /\ s = before ++ JsString.trimStart s.
Proof.
  induction s as [|c s [before [Hb Hs]]]; cbn.
  - exists EmptyString. split; reflexivity.
  - destruct (JsString.is_space c) eqn:Hc.
    + exists (String c before). cbn. rewrite Hc, Hb.
      split; [reflexivity|]. f_equal. exact Hs.
    + exists EmptyString. split; reflexivity.
Qed.

(** The white space [trimEnd] removes. *)
Lemma trimEnd_splits (s : string) :
  exists after : string,
    blank after = true /\ s = JsString.trimEnd s ++ after.
Proof.
  induction s as [|c s [after [Ha Hs]]]; cbn.
  - exists EmptyString. split; reflexivity.
  - destruct (JsString.trimEnd s) as [|k kept] eqn:Ht.
    + cbn in Hs. subst after.
      destruct (JsString.is_space c) eqn:Hc.
      * exists (String c s). cbn. rewrite Hc, Ha. split; reflexivity.
      * exists s. split; [exact Ha|reflexivity].
    + exists after. split; [exact Ha|].
      cbn. f_equal. exact Hs.
Qed.

(** A text is its trimmed part between two runs of white space. *)
Lemma trim_splits (s : string) :
  exists before after : string,
    blank before = true /\ blank after = true
    /\ s = before ++ JsString.trim s ++ after.
Proof.
  destruct (trimStart_splits s) as [before [Hb Hs]].
  destruct (trimEnd_splits (JsString.trimStart s)) as [after [Ha Ht]].
  exists before, after. split; [exact Hb|split; [exact Ha|]].
  unfold JsString.trim. rewrite <- Ht. exact Hs.
Qed.

(** One of the five labels between two runs of white space trims to the
    label. *)
Lemma trim_padded_label (before after l : string) :
  In l validLabels ->
  blank before = true ->
  blank after = true ->
  JsString.trim (before ++ l ++ after) = l.
Proof.
  intros Hl Hb Ha. unfold JsString.trim. rewrite trimStart_app, Hb.
  apply valid_label_cases in Hl.
  destruct Hl as [Hl | [Hl | [Hl | [Hl | Hl]]]]; subst l;
    match goal with
    | |- JsString.trimEnd (JsString.trimStart (?lbl ++ after)) = _ =>
        change (JsString.trimStart (lbl ++ after)) with (lbl ++ after);
        rewrite (trimEnd_app_blank lbl after Ha); reflexivity
    end.
Qed.

(** Which contents the handler turns into a label: those made of a text
    that lower-cases to one of the five labels, with white space and
    nothing else before and after it. *)
Lemma suggested_padded (c : option string) (l : string) :
  suggested c = Some l
  <-> In l validLabels
      /\ exists before s after : string,
           c = Some (before ++ s ++ after)
           /\ blank before = true /\ blank after = true
           /\ JsString.toLowerCase s = l.
Proof.
  rewrite suggested_spec. split.
  - intros [Hn Hl]. split; [exact Hl|].
    destruct c as [content|]; [|discriminate].
    cbn in Hn. inversion Hn as [Ht]. clear Hn.
    destruct (trim_splits content) as (before & after & Hb & Ha & Hs).
    exists before, (JsString.trim content), after.
    split; [f_equal; exact Hs|split; [exact Hb|split; [exact Ha|]]].
    unfold JsString.trim in *.
    rewrite <- trimEnd_toLowerCase, <- trimStart_toLowerCase. reflexivity.
  - intros [Hl (before & s & after & -> & Hb & Ha & Hs)].
    split; [|exact Hl].
    cbn [normalize option_map]. f_equal.
    rewrite !toLowerCase_app, Hs.
    rewrite (toLowerCase_blank _ Hb), (toLowerCase_blank _ Ha).
    apply trim_padded_label; assumption.
Qed.

(** The enrichment block when the completion resolves, in the world a
    successful insert leaves: the label derived from the content reaches
    the row when the store carries out the update, and only then. *)
Lemma enrich_suggestion (env : Env) (t d : jsval) (data : task) (w1 : world)
    (old : list task) (c : option string) (rest : list (option string)) :
  rows (store w1) = (old ++ [data])%list ->
  existsb (has_id (task_id data)) old = false ->
  enabled env = true ->
  chat_completions_create env (prompt_for env t d) = Resolves (c :: rest) ->
  exists w2 : world,
    enrich env t d data w1
    = (Ok (option_map (fun l => json_response (set_label l data))
                      match update_fault env with
                      | None => suggested c
                      | Some _ => None
                      end),
       w2)
    /\ rows (store w2)
       = (old ++ [labelled match update_fault env with
                           | None => suggested c
                           | Some _ => None
                           end data])%list.
Proof.
  intros Hrows Hfresh Hen Hc.
  destruct (suggested c) as [l|] eqn:Hs.
  - rewrite (enrich_valid env t d data w1 c rest l Hen Hc Hs). cbn zeta.
    assert (In l validLabels) as Hl by (apply (suggested_spec c l); exact Hs).
    destruct (update_fault env) as [f|] eqn:Hup.
    + unfold update_label. eexists. split; [reflexivity|exact Hrows].
    + rewrite (update_after_insert data l (store w1) old Hrows Hfresh
                 (valid_label_in_domain l Hl)).
      eexists. split; reflexivity.
  - rewrite (enrich_invalid env t d data w1 c rest Hen Hc Hs).
    destruct (update_fault env); eexists; (split; [reflexivity|exact Hrows]).
Qed.

(** C4, as the code has it.  Take a request that reaches a successful
    insert of the row [data], with enrichment enabled and a completion
    whose first choice has content [c].  The content is lower-cased and
    trimmed, and the label the table then holds for the task is that
    normalized text exactly when it is one of the five labels and the store
    carries out the label update; it is NULL otherwise, and the response
    carries the same row.  Normalizing accepts a content exactly when it is
    a text that lower-cases to one of the five labels with white space, and
    nothing else, before and after it.  In particular ["Work "] yields
    ["work"], while ["urgent"] and the empty string yield no label. *)
Theorem C4_stored_label
    (env : Env) (req : request) (w : world) (v : json) (t d : jsval)
    (h : string) (u : user) (data : task) (d1 : db)
    (c : option string) (rest : list (option string)) :
  method req <> "OPTIONS" ->
  body req = Parsed v ->
  destructure v = Some (t, d) ->
  authorization req = Some h ->
  nonempty h = true ->
  auth_getUser env h = Some u ->
  insert_task (insert_fault env) (pg_text env) (gen_random_uuid env)
              (mkInsert t d false (id u)) (store w) = (inr data, d1) ->
  enabled env = true ->
  chat_completions_create env (prompt_for env t d) = Resolves (c :: rest) ->
  option_map label (lookup (task_id data) (store (snd (serve env req w))))
  = Some match update_fault env with
         | None => suggested c
         | Some _ => None
         end
  /\ response_body (fst (serve env req w))
     = TaskJson (labelled match update_fault env with
                          | None => suggested c
                          | Some _ => None
                          end data)
  /\ (forall l : string,
        suggested c = Some l
        <-> In l validLabels
            /\ exists before s after : string,
                 c = Some (before ++ s ++ after)
                 /\ blank before = true /\ blank after = true
                 /\ JsString.toLowerCase s = l)
  /\ suggested (Some "Work ") = Some "work"
  /\ suggested (Some "urgent") = None
  /\ suggested (Some EmptyString) = None.
Proof.
  intros Hm Hb Hf Hh Ht Hu Hins Hen Hc.
  destruct (insert_task_row _ _ _ _ _ _ _ Hins)
    as (Hrows & Hfresh & _ & _ & Hlabel & _).
  destruct (enrich_suggestion env t d data
              (created h (mkInsert t d false (id u)) d1 w)
              (rows (store w)) c rest Hrows Hfresh Hen Hc)
    as (w2 & Hrun & Hstored).
  remember (match update_fault env with
            | None => suggested c
            | Some _ => None
            end) as kept eqn:Hkept.
  assert (serve env req w = (json_response (labelled kept data), w2))
    as Hserve.
  { rewrite (serve_created env req w v t d h u Hm Hb Hf Hh Ht Hu data d1 Hins).
    rewrite Hrun. destruct kept; reflexivity. }
  rewrite Hserve. cbn [fst snd].
  split; [|split; [reflexivity|split; [intros l; apply suggested_padded|]]].
  - unfold lookup. rewrite Hstored.
    rewrite (find_fresh_last data (labelled kept data)
               (rows (store w))); [| |exact Hfresh].
    + destruct kept as [l|]; cbn; [reflexivity|].
      rewrite Hlabel. reflexivity.
    + destruct kept; reflexivity.
  - repeat split.
Qed.

Lemma C4_witness :
  option_map label
    (lookup (task_id Sample.report_row)
            (store (snd (serve Sample.env_work Sample.report Sample.w0))))
  = Some (Some "work").
Proof.
  refine (proj1 (C4_stored_label
                   Sample.env_work Sample.report Sample.w0
                   (JObj [("title", JStr "Send the quarterly report");
                          ("description", JStr "before Friday")])
                   (Some (JStr "Send the quarterly report"))
                   (Some (JStr "before Friday"))
                   "Bearer alice-token" Sample.alice Sample.report_row
                   (mkDb [Sample.older; Sample.report_row] 1001%Z 1)
                   (Some "Work ") [] _ _ _ _ _ _ _ _ _)).
  - discriminate.
  - reflexivity.
  - reflexivity.
  - reflexivity.
  - reflexivity.
  - reflexivity.
  - reflexivity.
  - reflexivity.
  - reflexivity.
Defined.

(** The model answers ["Work "], which normalizes to ["work"], one of the
    five labels, and yet no label is stored: the store refused the label
    update, which the handler only logs. *)
Lemma C4_counterexample :
  chat_completions_create Sample.env_update_down
    (prompt_for Sample.env_update_down
                (Some (JStr "Send the quarterly report"))
                (Some (JStr "before Friday")))
  = Resolves [Some "Work "]
  /\ normalize (Some "Work ") = Some "work"
  /\ In "work" validLabels
  /\ option_map label
       (lookup (task_id Sample.report_row)
               (store (snd (serve Sample.env_update_down Sample.report
                                  Sample.w0))))
     = Some None
  /\ fst (serve Sample.env_update_down Sample.report Sample.w0)
     = json_response Sample.report_row
  /\ label Sample.report_row = None.
Proof. repeat split. cbn. auto. Qed.

(* ===================================================================== *)
(** ** C9: the label update and [updated_at] *)
(* ===================================================================== *)

Local Open Scope list_scope.

Lemma find_filter_head {A} (f : A -> bool) (l : list A) (x : A) (xs : list A) :
  filter f l = x :: xs -> find f l = Some x.
Proof.
  induction l as [|a l IH]; cbn; [discriminate|].
  destruct (f a); [intros H; inversion H; reflexivity|exact IH].
Qed.

Lemma has_id_set_label (tid : uuid) (l : string) (r : task) :
  has_id tid (set_label l r) = has_id tid r.
Proof. reflexivity. Qed.

Section Relabel.

Variables (tid : uuid) (l : string).

Lemma has_id_relabel (r : task) :
  has_id tid (relabel tid l r) = has_id tid r.
Proof.
  unfold relabel. destruct (has_id tid r) eqn:H; [|exact H]. exact H.
Qed.

Lemma relabel_twice (r : task) :
  relabel tid l (relabel tid l r) = relabel tid l r.
Proof.
  unfold relabel at 2 3. destruct (has_id tid r) eqn:H.
  - unfold relabel. rewrite has_id_set_label, H. reflexivity.
  - unfold relabel. rewrite H. reflexivity.
Qed.

Lemma filter_relabel (rs : list task) :
  filter (has_id tid) (map (relabel tid l) rs)
  = map (relabel tid l) (filter (has_id tid) rs).
Proof.
  induction rs as [|r rs IH]; cbn; [reflexivity|].
  rewrite has_id_relabel. destruct (has_id tid r); cbn; rewrite IH; reflexivity.
Qed.

Lemma map_relabel_twice (rs : list task) :
  map (relabel tid l) (map (relabel tid l) rs) = map (relabel tid l) rs.
Proof.
  rewrite map_map. apply map_ext. exact relabel_twice.
Qed.

(** What a successful label update did. *)
Lemma update_label_ok (fault : option pg_error) (d d1 : db) (t1 : task) :
  update_label fault tid l d = (inr t1, d1) ->
  fault = None
  /\ label_check (Some l) = true
  /\ exists t0 : task,
       filter (has_id tid) (rows d) = [t0]
       /\ t1 = set_label l t0
       /\ d1 = mkDb (map (relabel tid l) (rows d)) (clock d + 1)%Z (draws d).
Proof.
  unfold update_label. destruct fault as [f|]; [discriminate|].
  destruct (filter (has_id tid) (rows d)) as [|t0 [|t' more]] eqn:Hf;
    [discriminate| |destruct (label_check (Some l)); discriminate].
  destruct (label_check (Some l)); [|discriminate].
  intros H. inversion H. subst. repeat split. exists t0. repeat split.
Qed.

End Relabel.

(** C9, on the code.  A label update that succeeds returns the matched row
    with [label] assigned and every other column as it was, [updated_at]
    included, although the database clock has moved on; the table holds
    that row; and the same update issued again returns the same row and
    leaves the same table. *)
Theorem C9_label_update_keeps_updated_at
    (fault : option pg_error) (tid : uuid) (l : string) (d d1 : db) (t1 : task) :
  update_label fault tid l d = (inr t1, d1) ->
  (exists t0 : task,
     lookup tid d = Some t0
     /\ t1 = set_label l t0
     /\ updated_at t1 = updated_at t0)
  /\ label t1 = Some l
  /\ lookup tid d1 = Some t1
  /\ (clock d < clock d1)%Z
  /\ update_label fault tid l d1 = (inr t1, tick d1).
Proof.
  intros Hrun.
  destruct (update_label_ok tid l fault d d1 t1 Hrun)
    as (Hfault & Hcheck & t0 & Hmatch & Ht1 & Hd1).
  subst fault t1 d1.
  assert (has_id tid t0 = true) as Hid.
  { assert (In t0 (filter (has_id tid) (rows d))) as Hin
      by (rewrite Hmatch; left; reflexivity).
    apply filter_In in Hin. tauto. }
  assert (filter (has_id tid)
                 (map (relabel tid l) (rows d)) = [set_label l t0])
    as Hagain.
  { rewrite filter_relabel, Hmatch. cbn. unfold relabel. rewrite Hid.
    reflexivity. }
  split; [|split; [|split; [|split]]].
  - exists t0. repeat split.
    unfold lookup. apply (find_filter_head _ _ _ _ Hmatch).
  - reflexivity.
  - unfold lookup. cbn. apply (find_filter_head _ _ _ _ Hagain).
  - cbn. lia.
  - unfold update_label. cbn [rows clock draws].
    rewrite Hagain, Hcheck. rewrite map_relabel_twice. reflexivity.
Qed.

Lemma C9_witness :
  lookup 100 (snd (update_label None 100 "work" Sample.db_with_report))
  = Some (set_label "work" Sample.report_row)
  /\ updated_at (set_label "work" Sample.report_row) = Some 1000%Z
  /\ clock (snd (update_label None 100 "work" Sample.db_with_report)) = 1002%Z.
Proof.
  split; [|split; reflexivity].
  apply (C9_label_update_keeps_updated_at None 100 "work"
           Sample.db_with_report
           (snd (update_label None 100 "work" Sample.db_with_report))
           (set_label "work" Sample.report_row)).
  reflexivity.
Defined.

(* ===================================================================== *)
(** ** Beyond the claims: what one request does to the world *)
(* ===================================================================== *)

Lemma trace_logged (w : world) (ev : event) :
  trace (logged w ev) = trace w ++ [ev].
Proof. reflexivity. Qed.

(** The enrichment block in the world a successful insert leaves, with the
    events it appends. *)
Lemma enrich_shape (env : Env) (t d : jsval) (data : task) (w1 : world)
    (old : list task) :
  rows (store w1) = old ++ [data] ->
  existsb (has_id (task_id data)) old = false ->
  exists (r : option response) (w2 : world) (new : list event),
    enrich env t d data w1 = (Ok r, w2)
    /\ trace w2 = trace w1 ++ new
    /\ length (completion_calls new) <= 1
    /\ ((r = None
         /\ rows (store w2) = old ++ [data]
         /\ (writes new = []
             \/ exists l : string,
                  In l validLabels /\ writes new = [Update (task_id data) l]))
        \/ (exists l : string,
              In l validLabels
              /\ r = Some (json_response (set_label l data))
              /\ rows (store w2) = old ++ [set_label l data]
              /\ writes new = [Update (task_id data) l]
              /\ length (completion_calls new) = 1)).
Proof.
  intros Hrows Hfresh.
  destruct (enabled env) eqn:Hen.
  - destruct (chat_completions_create env (prompt_for env t d))
      as [e|[|c rest]] eqn:Hc.
    + rewrite (enrich_rejected env t d data w1 e Hen Hc).
      exists None, (caught (called env t d w1) e),
        [CompletionCall (prompt_for env t d);
         Console ErrorLevel "OpenAI API Error Details:"; quota_notice e].
      split; [reflexivity|]. split.
      { unfold caught, called. rewrite !trace_logged, <- !app_assoc.
        reflexivity. }
      unfold quota_notice.
      destruct (isQuotaError e); (split; [cbn; lia|left; cbn; auto]).
    + rewrite (enrich_no_choice env t d data w1 Hen Hc).
      exists None, (caught (called env t d w1) no_first_choice),
        [CompletionCall (prompt_for env t d);
         Console ErrorLevel "OpenAI API Error Details:";
         quota_notice no_first_choice].
      split; [reflexivity|]. split.
      { unfold caught, called. rewrite !trace_logged, <- !app_assoc.
        reflexivity. }
      unfold quota_notice.
      destruct (isQuotaError no_first_choice);
        (split; [cbn; lia|left; cbn; auto]).
    + destruct (suggested c) as [l|] eqn:Hs.
      * rewrite (enrich_valid env t d data w1 c rest l Hen Hc Hs). cbn zeta.
        assert (In l validLabels) as Hl by (apply (suggested_spec c l); exact Hs).
        destruct (update_fault env) as [f|] eqn:Hf.
        -- unfold update_label.
           eexists None, _,
             [CompletionCall (prompt_for env t d);
              Console LogLevel "AI Suggested Label:";
              Update (task_id data) l;
              Console ErrorLevel "Error updating task with label:"].
           split; [reflexivity|]. split.
           { unfold answered, called. cbn.
             rewrite <- !app_assoc. reflexivity. }
           split; [cbn; lia|]. left.
           split; [reflexivity|]. split; [exact Hrows|].
           right. exists l. split; [exact Hl|reflexivity].
        -- rewrite (update_after_insert data l (store w1) old Hrows Hfresh
                      (valid_label_in_domain l Hl)).
           eexists _, _,
             [CompletionCall (prompt_for env t d);
              Console LogLevel "AI Suggested Label:";
              Update (task_id data) l].
           split; [reflexivity|]. split.
           { unfold answered, called. cbn.
             rewrite <- !app_assoc. reflexivity. }
           split; [cbn; lia|]. right. exists l. cbn. repeat split; auto.
      * rewrite (enrich_invalid env t d data w1 c rest Hen Hc Hs).
        exists None, (answered env t d w1),
          [CompletionCall (prompt_for env t d);
           Console LogLevel "AI Suggested Label:"].
        split; [reflexivity|]. split.
        { unfold answered, called. rewrite !trace_logged, <- !app_assoc.
          reflexivity. }
        split; [cbn; lia|left; cbn; auto].
  - rewrite (enrich_disabled env t d data w1 Hen).
    exists None, w1, []. rewrite app_nil_r.
    split; [reflexivity|]. split; [reflexivity|].
    split; [cbn; lia|left; cbn; auto].
Qed.

(** Every run of the handler is one of the five outcomes. *)
Lemma serve_outcome (env : Env) (req : request) (w : world) :
  exists new : list event,
    trace (snd (serve env req w)) = trace w ++ new
    /\ outcome env req w (fst (serve env req w)) (snd (serve env req w)) new.
Proof.
  unfold serve. destruct (String.eqb (method req) "OPTIONS").
  { exists []. rewrite app_nil_r. split; [reflexivity|constructor]. }
  destruct (body req) as [why|v] eqn:Hb.
  { rewrite (run_malformed env req w why Hb). cbn [fst snd].
    eexists. split; [reflexivity|].
    apply (out_thrown env req w (SyntaxError why)); reflexivity. }
  destruct (destructure v) as [[t d]|] eqn:Hd.
  2:{ destruct v; try discriminate.
      rewrite (run_null env req w Hb). cbn [fst snd].
      eexists. split; [reflexivity|].
      apply (out_thrown env req w
               (TypeError "Cannot destructure property 'title' of null"));
        reflexivity. }
  destruct (JsString.truthy (authorization req)) eqn:Ha.
  2:{ rewrite (run_no_header env req w v t d Hb Hd Ha). cbn [fst snd].
      exists [Console LogLevel "Creating task with AI suggestions...";
              console_error_in_handler].
      split; [cbn; rewrite <- !app_assoc; reflexivity|].
      apply (out_thrown env req w (Error "No authorization header"));
        reflexivity. }
  destruct (authorization req) as [h|] eqn:Hh; [|discriminate].
  cbn in Ha. fold (nonempty h) in Ha.
  destruct (auth_getUser env h) as [u|] eqn:Hu.
  2:{ rewrite (run_no_user env req w v t d h Hb Hd Hh Ha Hu). cbn [fst snd].
      exists [Console LogLevel "Creating task with AI suggestions...";
              GetUser h; console_error_in_handler].
      split; [cbn; rewrite <- !app_assoc; reflexivity|].
      apply (out_thrown env req w (Error "No user found")); reflexivity. }
  rewrite (run_created env req w v t d h u Hb Hd Hh Ha Hu).
  unfold inserting.
  destruct (insert_task (insert_fault env) (pg_text env) (gen_random_uuid env)
                        (mkInsert t d false (id u)) (store w))
    as [[e|data] d1] eqn:Hins.
  - cbn [fst snd].
    exists [Console LogLevel "Creating task with AI suggestions...";
            GetUser h; Insert (mkInsert t d false (id u));
            console_error_in_handler].
    split; [cbn; rewrite <- !app_assoc; reflexivity|].
    apply (out_refused env req w (mkInsert t d false (id u)) e);
      [|reflexivity|reflexivity].
    cbn. apply (insert_task_error _ _ _ _ _ _ _ Hins).
  - destruct (insert_task_row _ _ _ _ _ _ _ Hins)
      as (Hrows & Hfresh & Huid & _ & Hlabel & _).
    fold (created h (mkInsert t d false (id u)) d1 w).
    destruct (enrich_shape env t d data
                (created h (mkInsert t d false (id u)) d1 w)
                (rows (store w)) Hrows Hfresh)
      as (r & w2 & new & Hrun & Htrace & Hcalls & Hcase).
    rewrite Hrun.
    exists ([Console LogLevel "Creating task with AI suggestions...";
             GetUser h; Insert (mkInsert t d false (id u))] ++ new).
    assert (trace w2
            = trace w
              ++ [Console LogLevel "Creating task with AI suggestions...";
                  GetUser h; Insert (mkInsert t d false (id u))] ++ new)
      as Hnew.
    { rewrite Htrace. cbn. rewrite <- !app_assoc. reflexivity. }
    destruct Hcase as [(-> & Hstored & Hw)|(l & Hl & -> & Hstored & Hw & Hone)];
      cbn [fst snd]; (split; [exact Hnew|]).
    + apply (out_created env req w (mkInsert t d false (id u)) data);
        [exact Hstored|exact Hfresh|exact Hlabel|exact Huid| |].
      * rewrite writes_app. cbn.
        destruct Hw as [->|(l & Hl & ->)]; [left; reflexivity|].
        right. exists l. auto.
      * rewrite completion_calls_app. cbn. exact Hcalls.
    + apply (out_labelled env req w (mkInsert t d false (id u)) data l);
        [exact Hstored|exact Hfresh|exact Hl|exact Huid| |].
      * rewrite writes_app, Hw. reflexivity.
      * rewrite completion_calls_app. cbn. exact Hone.
Qed.

(** What an outcome means for the table and the response: the table is as
    it was and no task is returned, or one row with an unused id was
    appended and that row is the one returned. *)
Lemma outcome_table (env : Env) (req : request) (w : world) (r : response)
    (w' : world) (new : list event) :
  outcome env req w r w' new ->
  (rows (store w') = rows (store w)
   /\ match response_body r with TaskJson _ => False | _ => True end)
  \/ exists row : task,
       rows (store w') = rows (store w) ++ [row]
       /\ existsb (has_id (task_id row)) (rows (store w)) = false
       /\ label_check (label row) = true
       /\ r = json_response row.
Proof.
  intros [ | e w1 new1 Hs _ _ | p e w1 new1 Hr _ _
           | p data w1 new1 Hr Hf Hl _ _ _
           | p data l w1 new1 Hr Hf Hl _ _ _ ].
  - left. split; [reflexivity|exact I].
  - left. rewrite Hs. split; [reflexivity|exact I].
  - left. split; [exact Hr|exact I].
  - right. exists data. rewrite Hl. auto.
  - right. exists (set_label l data). repeat split; auto.
    cbn [label set_label]. apply valid_label_in_domain. exact Hl.
Qed.

Lemma not_in_ids (tid : uuid) (rs : list task) :
  existsb (has_id tid) rs = false -> ~ In tid (map task_id rs).
Proof.
  induction rs as [|r rs IH]; cbn; [tauto|].
  unfold has_id at 1. destruct (Nat.eqb_spec (task_id r) tid) as [Heq|Hne];
    cbn; [discriminate|].
  intros H [Habs|Hin]; [contradiction|]. exact (IH H Hin).
Qed.

Lemma find_other_last (tid : uuid) (row : task) (rs : list task) :
  task_id row <> tid ->
  find (has_id tid) (rs ++ [row]) = find (has_id tid) rs.
Proof.
  intros Hne. induction rs as [|r rs IH]; cbn.
  - unfold has_id. destruct (Nat.eqb_spec (task_id row) tid); [contradiction|].
    reflexivity.
  - destruct (has_id tid r); [reflexivity|exact IH].
Qed.

(** X1.  A request never changes or removes a row that was in the table:
    afterwards the table is the old one, followed by at most one new row,
    whose id was not in use. *)
Theorem X1_existing_rows_are_kept (env : Env) (req : request) (w : world) :
  rows (store (snd (serve env req w))) = rows (store w)
  \/ exists row : task,
       rows (store (snd (serve env req w))) = rows (store w) ++ [row]
       /\ existsb (has_id (task_id row)) (rows (store w)) = false.
Proof.
  destruct (serve_outcome env req w) as [new [_ Hout]].
  destruct (outcome_table env req w _ _ new Hout)
    as [[Hsame _]|(row & Hrows & Hfresh & _)].
  - left. exact Hsame.
  - right. exists row. auto.
Qed.

(** X2.  [task_id] stays a key: if no two rows of the table share an id
    before a request, none do after it. *)
Theorem X2_task_id_stays_a_key (env : Env) (req : request) (w : world) :
  task_id_is_key (store w) ->
  task_id_is_key (store (snd (serve env req w))).
Proof.
  unfold task_id_is_key. intros Hkey.
  destruct (serve_outcome env req w) as [new [_ Hout]].
  destruct (outcome_table env req w _ _ new Hout)
    as [[Hsame _]|(row & Hrows & Hfresh & _)].
  - rewrite Hsame. exact Hkey.
  - rewrite Hrows, map_app. cbn.
    apply NoDup_app; [exact Hkey|repeat constructor; intros []|].
    intros a Ha [<-|[]]. exact (not_in_ids _ _ Hfresh Ha).
Qed.

Lemma X2_witness :
  task_id_is_key (store (snd (serve Sample.env_work Sample.report Sample.w0))).
Proof.
  apply (X2_task_id_stays_a_key Sample.env_work Sample.report Sample.w0).
  unfold task_id_is_key. cbn. repeat constructor. intros [].
Defined.

(** X3.  The label column stays in its domain: if every label of the
    table is NULL or one of the five before a request, so it is after. *)
Theorem X3_labels_stay_in_domain (env : Env) (req : request) (w : world) :
  labels_in_domain (store w) ->
  labels_in_domain (store (snd (serve env req w))).
Proof.
  unfold labels_in_domain. intros Hdom.
  destruct (serve_outcome env req w) as [new [_ Hout]].
  destruct (outcome_table env req w _ _ new Hout)
    as [[Hsame _]|(row & Hrows & _ & Hlabel & _)].
  - rewrite Hsame. exact Hdom.
  - rewrite Hrows. apply Forall_app. split; [exact Hdom|].
    constructor; [exact Hlabel|constructor].
Qed.

Lemma X3_witness :
  labels_in_domain
    (store (snd (serve Sample.env_work Sample.report Sample.w0))).
Proof.
  apply (X3_labels_stay_in_domain Sample.env_work Sample.report Sample.w0).
  unfold labels_in_domain. cbn. repeat constructor.
Defined.

(** X4.  A task in the response is the task in the table: whenever the
    response carries a task, its status is 200, the table holds exactly
    that row under the task's id, and the row's label is NULL or one of
    the five. *)
Theorem X4_returned_task_is_the_stored_row
    (env : Env) (req : request) (w : world) :
  match response_body (fst (serve env req w)) with
  | TaskJson t =>
      status (fst (serve env req w)) = 200%Z
      /\ lookup (task_id t) (store (snd (serve env req w))) = Some t
      /\ label_check (label t) = true
  | _ => True
  end.
Proof.
  destruct (serve_outcome env req w) as [new [_ Hout]].
  destruct (outcome_table env req w _ _ new Hout)
    as [[_ Hnone]|(row & Hrows & Hfresh & Hlabel & ->)].
  - destruct (response_body (fst (serve env req w))); tauto.
  - cbn. repeat split; [|exact Hlabel].
    unfold lookup. rewrite Hrows.
    apply find_fresh_last; [reflexivity|exact Hfresh].
Qed.

(** X5.  The store statements and completion calls of one request: it
    issues nothing, or one insert, or one insert followed by one label
    update carrying one of the five labels; it makes at most one
    completion call, and none unless it issued the insert. *)
Theorem X5_writes_of_a_request (env : Env) (req : request) (w : world) :
  exists new : list event,
    trace (snd (serve env req w)) = trace w ++ new
    /\ length (completion_calls new) <= 1
    /\ (writes new = [] -> completion_calls new = [])
    /\ (writes new = []
        \/ (exists p : insert_payload, writes new = [Insert p])
        \/ (exists (p : insert_payload) (tid : uuid) (l : string),
              In l validLabels /\ writes new = [Insert p; Update tid l])).
Proof.
  destruct (serve_outcome env req w) as [new [Htrace Hout]].
  exists new. split; [exact Htrace|].
  destruct Hout as [ | e w1 new1 _ Hw Hc | p e w1 new1 _ Hw Hc
                     | p data w1 new1 _ _ _ _ Hw Hc
                     | p data l w1 new1 _ _ Hl _ Hw Hc ].
  - cbn. repeat split; auto.
  - rewrite Hw, Hc. cbn. repeat split; auto.
  - rewrite Hw, Hc. cbn. repeat split; eauto.
  - split; [exact Hc|].
    destruct Hw as [->|(l & Hl & ->)].
    + split; [discriminate|]. right. left. eauto.
    + split; [discriminate|]. right. right. eauto.
  - rewrite Hw, Hc. split; [lia|]. split; [discriminate|].
    right. right. eauto.
Qed.

(** X6.  A credential the identity service rejects: the request (not a
    preflight) is answered 400, the store is untouched, and neither a
    store statement nor a completion call is issued.  The error is
    [No user found] once the body has parsed to a value other than
    [null]; a body that fails earlier reports its own error. *)
Theorem X6_rejected_credential
    (env : Env) (req : request) (w : world) (h : string) :
  method req <> "OPTIONS" ->
  authorization req = Some h ->
  nonempty h = true ->
  auth_getUser env h = None ->
  fst (serve env req w)
  = error_response
      (match body req with
       | Malformed why => why
       | Parsed JNull => "Cannot destructure property 'title' of null"
       | Parsed _ => "No user found"
       end)
  /\ store (snd (serve env req w)) = store w
  /\ writes (trace (snd (serve env req w))) = writes (trace w)
  /\ completion_calls (trace (snd (serve env req w)))
     = completion_calls (trace w).
Proof.
  intros Hm Hh Hne Hu.
  rewrite (serve_not_preflight env req w Hm).
  destruct (body req) as [why|v] eqn:Hb.
  { rewrite (run_malformed env req w why Hb). cbn.
    rewrite writes_app, completion_calls_app. cbn. rewrite !app_nil_r. auto. }
  destruct (destructure v) as [[t d]|] eqn:Hd.
  - rewrite (run_no_user env req w v t d h Hb Hd Hh Hne Hu). cbn.
    rewrite !writes_app, !completion_calls_app. cbn. rewrite !app_nil_r.
    destruct v; try discriminate; auto.
  - destruct v; try discriminate.
    rewrite (run_null env req w Hb). cbn.
    rewrite writes_app, completion_calls_app. cbn. rewrite !app_nil_r. auto.
Qed.

Lemma X6_witness :
  fst (serve Sample.env_work Sample.stranger Sample.w0)
  = error_response "No user found"
  /\ store (snd (serve Sample.env_work Sample.stranger Sample.w0))
     = store Sample.w0
  /\ writes (trace (snd (serve Sample.env_work Sample.stranger Sample.w0)))
     = writes (trace Sample.w0)
  /\ completion_calls
       (trace (snd (serve Sample.env_work Sample.stranger Sample.w0)))
     = completion_calls (trace Sample.w0).
Proof.
  apply (X6_rejected_credential Sample.env_work Sample.stranger Sample.w0
           "Bearer mallory-token").
  - discriminate.
  - reflexivity.
  - reflexivity.
  - reflexivity.
Defined.

(** X7.  Without an API key ([OPENAI_API_KEY] unset or empty) the
    enrichment block is skipped, whatever [ENABLE_OPENAI] says: no request
    makes a completion call, and a task in the response has no label. *)
Theorem X7_without_api_key (env : Env) (req : request) (w : world) :
  JsString.truthy (OPENAI_API_KEY env) = false ->
  completion_calls (trace (snd (serve env req w))) = completion_calls (trace w)
  /\ match response_body (fst (serve env req w)) with
     | TaskJson t => label t = None
     | _ => True
     end.
Proof.
  intros Hkey.
  assert (enabled env = false) as Hoff
    by (unfold enabled; rewrite Hkey; reflexivity).
  unfold serve. destruct (String.eqb (method req) "OPTIONS"); [cbn; auto|].
  destruct (body req) as [why|v] eqn:Hb.
  { rewrite (run_malformed env req w why Hb). cbn.
    rewrite completion_calls_app. cbn. rewrite app_nil_r. auto. }
  destruct (destructure v) as [[t d]|] eqn:Hd.
  2:{ destruct v; try discriminate.
      rewrite (run_null env req w Hb). cbn.
      rewrite completion_calls_app. cbn. rewrite app_nil_r. auto. }
  destruct (JsString.truthy (authorization req)) eqn:Ha.
  2:{ rewrite (run_no_header env req w v t d Hb Hd Ha). cbn.
      rewrite !completion_calls_app. cbn. rewrite !app_nil_r. auto. }
  destruct (authorization req) as [h|] eqn:Hh; [|discriminate].
  cbn in Ha. fold (nonempty h) in Ha.
  destruct (auth_getUser env h) as [u|] eqn:Hu.
  2:{ rewrite (run_no_user env req w v t d h Hb Hd Hh Ha Hu). cbn.
      rewrite !completion_calls_app. cbn. rewrite !app_nil_r. auto. }
  rewrite (run_created env req w v t d h u Hb Hd Hh Ha Hu).
  unfold inserting.
  destruct (insert_task (insert_fault env) (pg_text env) (gen_random_uuid env)
                        (mkInsert t d false (id u)) (store w))
    as [[e|data] d1] eqn:Hins.
  - cbn. rewrite !completion_calls_app. cbn. rewrite !app_nil_r. auto.
  - rewrite (enrich_disabled env t d data _ Hoff). cbn.
    rewrite !completion_calls_app. cbn. rewrite !app_nil_r.
    split; [reflexivity|].
    apply (insert_task_row _ _ _ _ _ _ _ Hins).
Qed.

Lemma X7_witness :
  completion_calls
    (trace (snd (serve (mkEnv None None Sample.sessions None None
                              (fun n => 100 + n) (Sample.answers "Work ")
                              (fun _ => "[object Object]") (fun _ => "{}"))
                       Sample.report Sample.w0)))
  = completion_calls (trace Sample.w0).
Proof.
  refine (proj1 (X7_without_api_key _ Sample.report Sample.w0 _)).
  reflexivity.
Defined.

(* ===================================================================== *)
(** ** Beyond the claims: the suggestion and the store statements *)
(* ===================================================================== *)

Local Open Scope string_scope.

(** X8.  Letter case and surrounding white space do not matter to the
    validation: a completion that lower-cases to one of the five labels,
    with any white space before and after it, produces that label. *)
Theorem X8_case_and_padding_are_ignored (before s after l : string) :
  In l validLabels ->
  JsString.toLowerCase s = l ->
  blank before = true ->
  blank after = true ->
  suggested (Some (before ++ s ++ after)) = Some l.
Proof.
  intros Hl Hs Hb Ha.
  apply suggested_spec. split; [|exact Hl].
  cbn [normalize option_map]. f_equal.
  rewrite !toLowerCase_app, Hs.
  rewrite (toLowerCase_blank _ Hb), (toLowerCase_blank _ Ha).
  unfold JsString.trim. rewrite trimStart_app, Hb.
  apply valid_label_cases in Hl.
  destruct Hl as [Hl | [Hl | [Hl | [Hl | Hl]]]]; subst l;
    match goal with
    | |- JsString.trimEnd (JsString.trimStart (?lbl ++ after)) = _ =>
        change (JsString.trimStart (lbl ++ after)) with (lbl ++ after);
        rewrite (trimEnd_app_blank lbl after Ha); reflexivity
    end.
Qed.

Lemma X8_witness :
  suggested (Some (" " ++ "PRIORITY" ++ Sample.newline)) = Some "priority".
Proof.
  apply (X8_case_and_padding_are_ignored " " "PRIORITY" Sample.newline
           "priority").
  - cbn. auto.
  - reflexivity.
  - reflexivity.
  - reflexivity.
Defined.

Local Open Scope list_scope.

(** X9.  Insert, then look up: the row a successful insert returns is the
    row the table holds under its id, the answer for every other id is
    what it was, and the new row starts unlabelled with both timestamps
    at the time of the statement. *)
Theorem X9_insert_then_lookup
    (fault : option pg_error) (cast : json -> string) (gen : nat -> uuid)
    (p : insert_payload) (d d' : db) (row : task) :
  insert_task fault cast gen p d = (inr row, d') ->
  lookup (task_id row) d' = Some row
  /\ lookup (task_id row) d = None
  /\ (forall tid : uuid, tid <> task_id row -> lookup tid d' = lookup tid d)
  /\ label row = None
  /\ created_at row = updated_at row.
Proof.
  intros Hins.
  destruct (insert_task_row fault cast gen p d d' row Hins)
    as (Hrows & Hfresh & _ & _ & Hlabel & _ & Hc & Hu).
  unfold lookup. rewrite Hrows. repeat split.
  - apply find_fresh_last; [reflexivity|exact Hfresh].
  - apply find_has_id_absent. exact Hfresh.
  - intros tid Hne. apply find_other_last. congruence.
  - exact Hlabel.
  - congruence.
Qed.

Lemma X9_witness :
  lookup 100
    (snd (insert_task None (fun _ => "{}") (fun n => 100 + n)
            Sample.report_payload (store Sample.w0)))
  = Some Sample.report_row.
Proof.
  refine (proj1 (X9_insert_then_lookup None (fun _ => "{}") (fun n => 100 + n)
                   Sample.report_payload (store Sample.w0)
                   (snd (insert_task None (fun _ => "{}") (fun n => 100 + n)
                           Sample.report_payload (store Sample.w0)))
                   Sample.report_row _)).
  reflexivity.
Defined.

Lemma find_relabel_other (tid other : uuid) (l : string) (rs : list task) :
  other <> tid ->
  find (has_id other) (map (relabel tid l) rs) = find (has_id other) rs.
Proof.
  intros Hne. induction rs as [|r rs IH]; cbn [map find]; [reflexivity|].
  rewrite IH. unfold relabel. destruct (has_id tid r) eqn:Hr.
  - rewrite has_id_set_label.
    assert (has_id other r = false) as Hother.
    { unfold has_id in *. apply Nat.eqb_eq in Hr.
      apply Nat.eqb_neq. congruence. }
    rewrite Hother. reflexivity.
  - reflexivity.
Qed.

(** X10.  The label update touches one row: after a successful update of
    the task [tid], the row under any other id is what it was, and the
    table has as many rows as before. *)
Theorem X10_update_touches_one_row
    (fault : option pg_error) (tid : uuid) (l : string) (d d1 : db)
    (t1 : task) :
  update_label fault tid l d = (inr t1, d1) ->
  (forall other : uuid, other <> tid -> lookup other d1 = lookup other d)
  /\ length (rows d1) = length (rows d)
  /\ map task_id (rows d1) = map task_id (rows d).
Proof.
  intros Hrun.
  destruct (update_label_ok tid l fault d d1 t1 Hrun)
    as (_ & _ & t0 & _ & _ & ->).
  cbn [rows]. repeat split.
  - intros other Hne. unfold lookup. cbn [rows].
    apply find_relabel_other. exact Hne.
  - apply length_map.
  - rewrite map_map. apply map_ext. intros r. unfold relabel.
    destruct (has_id tid r); reflexivity.
Qed.

Lemma X10_witness :
  lookup 3 (snd (update_label None 100 "work" Sample.db_with_report))
  = lookup 3 Sample.db_with_report.
Proof.
  refine (proj1 (X10_update_touches_one_row None 100 "work"
                   Sample.db_with_report
                   (snd (update_label None 100 "work" Sample.db_with_report))
                   (set_label "work" Sample.report_row) _) 3 _).
  - reflexivity.
  - discriminate.
Defined.

(** X11.  What the label update must refuse, it refuses whole: with a
    label outside the five, or with no row or several rows under the id,
    it returns an error and leaves every row as it was. *)
Theorem X11_refused_statements_change_nothing
    (fault : option pg_error) (tid : uuid) (l : string) (d : db) :
  (label_check (Some l) = false \/ length (filter (has_id tid) (rows d)) <> 1) ->
  exists e : pg_error,
    fst (update_label fault tid l d) = inl e
    /\ rows (snd (update_label fault tid l d)) = rows d.
Proof.
  intros Hbad. unfold update_label.
  destruct fault as [f|]; [exists f; split; reflexivity|].
  destruct (filter (has_id tid) (rows d)) as [|t0 [|t' more]].
  - eexists. split; reflexivity.
  - destruct Hbad as [Hl|Hn]; [|cbn in Hn; congruence].
    rewrite Hl. eexists. split; reflexivity.
  - destruct (label_check (Some l)); eexists; split; reflexivity.
Qed.

Lemma X11_witness :
  exists e : pg_error,
    fst (update_label None 100 "urgent" Sample.db_with_report) = inl e
    /\ rows (snd (update_label None 100 "urgent" Sample.db_with_report))
       = rows Sample.db_with_report.
Proof.
  apply (X11_refused_statements_change_nothing None 100 "urgent"
           Sample.db_with_report).
  left. reflexivity.
Defined.

(* ===================================================================== *)
(** ** Beyond the claims: create-stripe-session *)
(* ===================================================================== *)

Section StripeFacts.

Import Effects StripeSession.
Local Open Scope string_scope.

Ltac run_handler :=
  unfold serve, try_block, customer_for, create_customer,
    stripe_customers_create, stripe_sessions_create, update_profile,
    select_profile, getUser, console, emit, bind, ret, throw, nonempty.

(** One case split on an answer of the environment or a test of the
    handler, innermost scrutinees only. *)
Ltac split_once :=
  match goal with
  | |- context [String.eqb (method ?r) ?m] =>
      destruct (String.eqb (method r) m) eqn:?
  | |- context [auth_getUser ?e ?t] => destruct (auth_getUser e t) eqn:?
  | |- context [select_fault ?e] => destruct (select_fault e) eqn:?
  | |- context [filter (owned_by ?u) (profiles ?w)] =>
      destruct (filter (owned_by u) (profiles w)) eqn:?
  | |- context [stripe_customer_id ?p] => destruct (stripe_customer_id p) eqn:?
  | |- context [negb (String.eqb ?x EmptyString)] =>
      destruct (negb (String.eqb x EmptyString)) eqn:?
  | |- context [customers_create ?e ?p] => destruct (customers_create e p) eqn:?
  | |- context [update_fault ?e] => destruct (update_fault e) eqn:?
  | |- context [STRIPE_PRICE_ID ?e] => destruct (STRIPE_PRICE_ID e) eqn:?
  | |- context [sessions_create ?e ?p] => destruct (sessions_create e p) eqn:?
  | |- context [match ?x with _ => _ end] => is_var x; destruct x
  end.

Ltac by_cases :=
  repeat (split_once; cbn in *; unfold nonempty in *; try congruence).

Ltac read_trace :=
  unfold customer_creations, session_creations, profile_updates,
    profile_reads;
  cbn; rewrite ?filter_app; cbn; rewrite ?app_nil_r; auto.

(** **** The bearer token *)

Lemma split_without_separator (sep : ascii) (s : string) :
  JsSplit.contains sep s = false -> JsSplit.split sep s = [s].
Proof.
  induction s as [|c s IH]; cbn; [reflexivity|].
  rewrite Ascii.eqb_sym. destruct (Ascii.eqb c sep); cbn; [discriminate|].
  intros H. rewrite (IH H). reflexivity.
Qed.

Lemma split_at_first_separator (sep : ascii) (a b : string) :
  JsSplit.contains sep a = false ->
  JsSplit.split sep (a ++ String sep b) = a :: JsSplit.split sep b.
Proof.
  induction a as [|c a IH]; cbn.
  - rewrite Ascii.eqb_refl. reflexivity.
  - rewrite Ascii.eqb_sym. destruct (Ascii.eqb c sep); cbn; [discriminate|].
    intros H. rewrite (IH H). reflexivity.
Qed.

(** X12.  The token handed to the identity service is the second
    space-separated word of the [Authorization] header: the credential of
    a well-formed [scheme credential] header, and the empty string when
    the header is absent or has no space. *)
Theorem X12_bearer_token (m : string) (o : option string)
    (scheme credential : string) :
  JsSplit.contains " " scheme = false ->
  JsSplit.contains " " credential = false ->
  token (mkRequest m (Some (scheme ++ " " ++ credential)) o) = credential
  /\ token (mkRequest m (Some scheme) o) = EmptyString
  /\ token (mkRequest m None o) = EmptyString.
Proof.
  intros Hs Hc. unfold token, JsSplit.segment. cbn [authorization].
  repeat split.
  - change (scheme ++ " " ++ credential)
      with (scheme ++ String " " credential).
    rewrite (split_at_first_separator _ _ _ Hs).
    rewrite (split_without_separator _ _ Hc). reflexivity.
  - rewrite (split_without_separator _ _ Hs). reflexivity.
Qed.

Lemma X12_witness :
  token (mkRequest "POST" (Some ("Bearer" ++ " " ++ "carol-token")) None)
  = "carol-token".
Proof.
  refine (proj1 (X12_bearer_token "POST" None "Bearer" "carol-token" _ _));
    reflexivity.
Defined.

(** **** The customer *)

Lemma owned_by_set_customer (uid customerId : string) (p : profile) :
  owned_by uid (set_customer customerId p) = owned_by uid p.
Proof. reflexivity. Qed.

Lemma filter_with_customer (uid customerId : string) (ps : list profile) :
  filter (owned_by uid) (with_customer uid customerId ps)
  = map (set_customer customerId) (filter (owned_by uid) ps).
Proof.
  unfold with_customer. induction ps as [|p ps IH]; cbn; [reflexivity|].
  destruct (owned_by uid p) eqn:Hp.
  - rewrite owned_by_set_customer, Hp. cbn. rewrite IH. reflexivity.
  - rewrite Hp. exact IH.
Qed.



(** X14.  Without [STRIPE_PRICE_ID] (unset or empty) no request ever
    creates a checkout session, and no response has status 200. *)
Theorem X14_no_session_without_a_price
    (env : Env) (req : request) (w : world) :
  JsString.truthy (STRIPE_PRICE_ID env) = false ->
  session_creations (trace (snd (serve env req w)))
  = session_creations (trace w)
  /\ status (fst (serve env req w)) <> 200%Z.
Proof.
  intros Hprice. run_handler. by_cases; split; try discriminate; read_trace.
Qed.

Lemma X14_witness :
  session_creations
    (trace (snd (serve (StripeSample.env_with None None) StripeSample.checkout
                       StripeSample.w0)))
  = session_creations (trace StripeSample.w0).
Proof.
  refine (proj1 (X14_no_session_without_a_price
                   (StripeSample.env_with None None) StripeSample.checkout
                   StripeSample.w0 _)).
  reflexivity.
Defined.

(** The run that creates a customer: its world, whatever comes after. *)
Lemma run_creating_customer
    (env : Env) (req : request) (w : world) (u : user) (p : profile)
    (customerId : string) :
  method req <> "OPTIONS" ->
  auth_getUser env (token req) = AuthUser (Some u) ->
  select_fault env = None ->
  filter (owned_by (id u)) (profiles w) = [p] ->
  JsString.truthy (stripe_customer_id p) = false ->
  customers_create env (customer_request env u) = StripeResolves customerId ->
  profiles (snd (serve env req w))
  = match update_fault env with
    | Some _ => profiles w
    | None => with_customer (id u) customerId (profiles w)
    end
  /\ customer_creations (trace (snd (serve env req w)))
     = (customer_creations (trace w)
        ++ [CustomersCreate (customer_request env u)])%list
  /\ profile_updates (trace (snd (serve env req w)))
     = (profile_updates (trace w) ++ [UpdateProfile (id u) customerId])%list.
Proof.
  intros Hm Hu Hsel Hp Hc Hcreate.
  apply String.eqb_neq in Hm.
  unfold customer_request, email_of in *.
  unfold with_customer. run_handler.
  rewrite Hm, Hu. cbn. rewrite Hsel, Hp. cbn.
  destruct (stripe_customer_id p) as [existing|]; cbn in Hc |- *.
  - unfold nonempty in *. rewrite Hc. cbn. rewrite Hcreate. cbn.
    by_cases; repeat split; read_trace.
  - rewrite Hcreate. cbn. by_cases; repeat split; read_trace.
Qed.



(** X16.  Nothing happens for a caller the identity service does not
    resolve: the request (not a preflight) is answered 400, no profile is
    read or written, and no Stripe call is made. *)
Theorem X16_unauthenticated_checkout
    (env : Env) (req : request) (w : world) :
  method req <> "OPTIONS" ->
  (forall u : user, auth_getUser env (token req) <> AuthUser (Some u)) ->
  fst (serve env req w)
  = mkResponse 400 CorsJson
      (ErrorJson (match auth_getUser env (token req) with
                  | AuthError msg => "Authentication failed: " ++ msg
                  | AuthUser _ => "No user found"
                  end))
  /\ profiles (snd (serve env req w)) = profiles w
  /\ profile_reads (trace (snd (serve env req w))) = profile_reads (trace w)
  /\ customer_creations (trace (snd (serve env req w)))
     = customer_creations (trace w)
  /\ session_creations (trace (snd (serve env req w)))
     = session_creations (trace w).
Proof.
  intros Hm Hnone. apply String.eqb_neq in Hm.
  run_handler. rewrite Hm.
  destruct (auth_getUser env (token req)) as [msg|[u|]] eqn:Hu; cbn.
  - repeat split; read_trace.
  - exfalso. exact (Hnone u eq_refl).
  - repeat split; read_trace.
Qed.

Lemma X16_witness :
  fst (serve StripeSample.env (mkRequest "POST" None None) StripeSample.w0)
  = mkResponse 400 CorsJson (ErrorJson "Authentication failed: invalid JWT").
Proof.
  refine (proj1 (X16_unauthenticated_checkout StripeSample.env
                   (mkRequest "POST" None None) StripeSample.w0 _ _)).
  - discriminate.
  - intros u. discriminate.
Defined.

(** The run that finds a customer on the profile. *)
Lemma run_reusing_customer
    (env : Env) (req : request) (w : world) (u : user) (p : profile)
    (customerId : string) :
  method req <> "OPTIONS" ->
  auth_getUser env (token req) = AuthUser (Some u) ->
  select_fault env = None ->
  filter (owned_by (id u)) (profiles w) = [p] ->
  stripe_customer_id p = Some customerId ->
  nonempty customerId = true ->
  profiles (snd (serve env req w)) = profiles w
  /\ customer_creations (trace (snd (serve env req w)))
     = customer_creations (trace w)
  /\ profile_updates (trace (snd (serve env req w)))
     = profile_updates (trace w).
Proof.
  intros Hm Hu Hsel Hp Hc Hne.
  apply String.eqb_neq in Hm. run_handler.
  rewrite Hm, Hu. cbn. rewrite Hsel, Hp. cbn. rewrite Hc. cbn.
  unfold nonempty in *. rewrite Hne. cbn.
  by_cases; repeat split; read_trace.
Qed.

(** X17.  Asking twice makes one customer: when the first request
    created a customer and wrote it to the profile, the same request sent
    again creates none and writes nothing more to the profile. *)
Theorem X17_second_request_reuses_the_customer
    (env : Env) (req : request) (w : world) (u : user) (p : profile)
    (customerId : string) :
  method req <> "OPTIONS" ->
  auth_getUser env (token req) = AuthUser (Some u) ->
  select_fault env = None ->
  filter (owned_by (id u)) (profiles w) = [p] ->
  JsString.truthy (stripe_customer_id p) = false ->
  customers_create env (customer_request env u) = StripeResolves customerId ->
  nonempty customerId = true ->
  update_fault env = None ->
  let w1 := snd (serve env req w) in
  let w2 := snd (serve env req w1) in
  customer_creations (trace w2)
  = (customer_creations (trace w)
     ++ [CustomersCreate (customer_request env u)])%list
  /\ profile_updates (trace w2)
     = (profile_updates (trace w) ++ [UpdateProfile (id u) customerId])%list
  /\ profiles w2 = profiles w1.
Proof.
  intros Hm Hu Hsel Hp Hc Hcreate Hne Hupd w1 w2.
  destruct (run_creating_customer env req w u p customerId
              Hm Hu Hsel Hp Hc Hcreate) as (Hprofiles & Hcreated & Hupdated).
  rewrite Hupd in Hprofiles. fold w1 in Hprofiles, Hcreated, Hupdated.
  assert (filter (owned_by (id u)) (profiles w1) = [set_customer customerId p])
    as Hp1.
  { rewrite Hprofiles, filter_with_customer, Hp. reflexivity. }
  destruct (run_reusing_customer env req w1 u (set_customer customerId p)
              customerId Hm Hu Hsel Hp1 eq_refl Hne)
    as (Hsame & Hnone & Hnoupd).
  fold w2 in Hsame, Hnone, Hnoupd.
  rewrite Hnone, Hnoupd, Hcreated, Hupdated. auto.
Qed.

Lemma X17_witness :
  customer_creations
    (trace (snd (serve StripeSample.env StripeSample.checkout
                       (snd (serve StripeSample.env StripeSample.checkout
                                   StripeSample.w0)))))
  = [CustomersCreate (customer_request StripeSample.env StripeSample.carol)].
Proof.
  refine (proj1 (X17_second_request_reuses_the_customer
                   StripeSample.env StripeSample.checkout StripeSample.w0
                   StripeSample.carol StripeSample.fresh_profile "cus_1"
                   _ _ _ _ _ _ _ _)).
  - discriminate.
  - reflexivity.
  - reflexivity.
  - reflexivity.
  - reflexivity.
  - reflexivity.
  - reflexivity.
  - reflexivity.
Defined.

(** X18.  A failed profile update is only logged, so the customer id is
    lost: the first request still goes on with the new customer, the
    profile is left without one, and the same request sent again creates
    a second customer for the same user. *)
Theorem X18_failed_profile_update_duplicates_the_customer
    (env : Env) (req : request) (w : world) (u : user) (p : profile)
    (customerId : string) (e : pg_error) :
  method req <> "OPTIONS" ->
  auth_getUser env (token req) = AuthUser (Some u) ->
  select_fault env = None ->
  filter (owned_by (id u)) (profiles w) = [p] ->
  JsString.truthy (stripe_customer_id p) = false ->
  customers_create env (customer_request env u) = StripeResolves customerId ->
  update_fault env = Some e ->
  let w1 := snd (serve env req w) in
  let w2 := snd (serve env req w1) in
  profiles w1 = profiles w
  /\ profiles w2 = profiles w
  /\ customer_creations (trace w2)
     = (customer_creations (trace w)
        ++ [CustomersCreate (customer_request env u);
            CustomersCreate (customer_request env u)])%list.
Proof.
  intros Hm Hu Hsel Hp Hc Hcreate Hupd w1 w2.
  destruct (run_creating_customer env req w u p customerId
              Hm Hu Hsel Hp Hc Hcreate) as (Hprofiles & Hcreated & _).
  rewrite Hupd in Hprofiles. fold w1 in Hprofiles, Hcreated.
  assert (filter (owned_by (id u)) (profiles w1) = [p]) as Hp1
    by (rewrite Hprofiles; exact Hp).
  destruct (run_creating_customer env req w1 u p customerId
              Hm Hu Hsel Hp1 Hc Hcreate) as (Hprofiles2 & Hcreated2 & _).
  rewrite Hupd in Hprofiles2. fold w2 in Hprofiles2, Hcreated2.
  rewrite Hprofiles2, Hcreated2, Hcreated, Hprofiles, <- app_assoc. auto.
Qed.

Lemma X18_witness :
  customer_creations
    (trace (snd (serve (StripeSample.env_with (Some "price_1")
                                              (Some Sample.unavailable))
                       StripeSample.checkout
                       (snd (serve (StripeSample.env_with (Some "price_1")
                                                          (Some Sample.unavailable))
                                   StripeSample.checkout StripeSample.w0)))))
  = [CustomersCreate
       (customer_request (StripeSample.env_with (Some "price_1")
                                                (Some Sample.unavailable))
                         StripeSample.carol);
     CustomersCreate
       (customer_request (StripeSample.env_with (Some "price_1")
                                                (Some Sample.unavailable))
                         StripeSample.carol)].
Proof.
  refine (proj2 (proj2 (X18_failed_profile_update_duplicates_the_customer
                          (StripeSample.env_with (Some "price_1")
                                                 (Some Sample.unavailable))
                          StripeSample.checkout StripeSample.w0
                          StripeSample.carol StripeSample.fresh_profile
                          "cus_1" Sample.unavailable _ _ _ _ _ _ _))).
  - discriminate.
  - reflexivity.
  - reflexivity.
  - reflexivity.
  - reflexivity.
  - reflexivity.
  - reflexivity.
Defined.

End StripeFacts.

(* ===================================================================== *)
(** ** Beyond the claims: openai-chat *)
(* ===================================================================== *)

Section ChatFacts.

Import Effects OpenAIChat.
Local Open Scope string_scope.

Ltac run_chat :=
  unfold serve, try_block, on_error, completions_create, req_json,
    read_messages, getUser, emit, bind, ret, throw.

Ltac read_calls :=
  unfold completion_calls, identity_checks;
  cbn; rewrite ?filter_app; cbn; rewrite ?app_nil_r; auto.

(** X19.  No completion call for a caller who is not authenticated:
    whatever the method, the body and the configuration, a request whose
    credential is absent, empty or not accepted makes no completion call;
    a POST among them is answered 401. *)
Theorem X19_chat_requires_authentication
    (env : Env) (req : request) (w : world) :
  chat_accepted env req = false ->
  completion_calls (snd (serve env req w)) = completion_calls w
  /\ (method req = "POST" ->
      fst (serve env req w)
      = Ok (json_response 401
              (ErrorJson (if JsString.truthy (authorization req)
                          then "Unauthorized"
                          else "No authorization header")))).
Proof.
  unfold chat_accepted. intros Hno. run_chat.
  destruct (String.eqb (method req) "OPTIONS") eqn:Ho; [split; [reflexivity|]|].
  { intros Hp. rewrite Hp in Ho. discriminate. }
  destruct (String.eqb_spec (method req) "POST") as [Hp|Hp]; cbn;
    [|split; [reflexivity|contradiction]].
  destruct (authorization req) as [h|]; cbn; [|split; auto].
  unfold nonempty in *.
  destruct (negb (String.eqb h EmptyString)); cbn in *; [|split; auto].
  destruct (auth_getUser env h) as [|[|]]; try discriminate;
    cbn; split; auto; read_calls.
Qed.

Lemma X19_witness :
  completion_calls
    (snd (serve ChatSample.env
                (Handler.mkRequest "POST" (Some "Bearer mallory-token")
                                   (Parsed ChatSample.both)) []))
  = completion_calls [].
Proof.
  refine (proj1 (X19_chat_requires_authentication ChatSample.env _ [] _)).
  reflexivity.
Defined.

(** X20.  Without an API key an authenticated POST is answered 500 before
    its body is read: only the identity check has happened. *)
Theorem X20_chat_without_api_key
    (env : Env) (req : request) (w : world) (h : string) :
  method req = "POST" ->
  authorization req = Some h ->
  nonempty h = true ->
  auth_getUser env h = AuthUser true ->
  JsString.truthy (OPENAI_API_KEY env) = false ->
  serve env req w
  = (Ok (json_response 500 (ErrorJson "OpenAI API key not configured")),
     (w ++ [GetUser h])%list).
Proof.
  intros Hm Hh Hne Hu Hkey. run_chat.
  rewrite Hm, Hh. cbn. rewrite Hne. cbn. rewrite Hu, Hkey. reflexivity.
Qed.

Lemma X20_witness :
  serve (mkEnv None ChatSample.known (fun _ => ChatResolves ChatSample.hello))
        (ChatSample.ask (Malformed "Unexpected end of JSON input")) []
  = (Ok (json_response 500 (ErrorJson "OpenAI API key not configured")),
     [GetUser "Bearer alice-token"]).
Proof.
  apply (X20_chat_without_api_key _ _ [] "Bearer alice-token");
    reflexivity.
Defined.

(** X21.  A body that cannot be used is a server error here, not a client
    error: for an authenticated POST with the key configured, a body that
    is not JSON, or is the JSON [null], is answered 500 with the thrown
    message, and no completion call is made. *)
Theorem X21_chat_unreadable_body
    (env : Env) (req : request) (w : world) (h : string) :
  method req = "POST" ->
  authorization req = Some h ->
  nonempty h = true ->
  auth_getUser env h = AuthUser true ->
  JsString.truthy (OPENAI_API_KEY env) = true ->
  match body req with
  | Malformed why =>
      fst (serve env req w)
      = Ok (json_response 500
              (ErrorJson (or_string (Some why) "Internal server error")))
      /\ completion_calls (snd (serve env req w)) = completion_calls w
  | Parsed JNull =>
      fst (serve env req w)
      = Ok (json_response 500
              (ErrorJson "Cannot read properties of null (reading 'messages')"))
      /\ completion_calls (snd (serve env req w)) = completion_calls w
  | Parsed _ => True
  end.
Proof.
  intros Hm Hh Hne Hu Hkey. run_chat.
  rewrite Hm, Hh. cbn. rewrite Hne. cbn. rewrite Hu, Hkey.
  destruct (body req) as [why|[]]; cbn; auto; split; auto; read_calls.
Qed.

Lemma X21_witness :
  fst (serve ChatSample.env
             (ChatSample.ask (Malformed "Unexpected end of JSON input")) [])
  = Ok (json_response 500 (ErrorJson "Unexpected end of JSON input")).
Proof.
  refine (proj1 (X21_chat_unreadable_body ChatSample.env
                   (ChatSample.ask (Malformed "Unexpected end of JSON input"))
                   [] "Bearer alice-token" _ _ _ _ _));
    reflexivity.
Defined.

(** Mapping the messages touches nothing: it yields the list or throws a
    plain [TypeError]. *)
Lemma map_messages_pure (items : list json) (w : world) :
  (exists l : list chat_message, map_messages items w = (Ok l, w))
  \/ (exists e : thrown,
        map_messages items w = (Throw e, w) /\ error_response e = None).
Proof.
  induction items as [|msg more IH]; cbn.
  - left. exists []. reflexivity.
  - destruct IH as [[l Hl]|[e [He Hr]]].
    + destruct msg; unfold bind; try rewrite Hl; cbn;
        try (left; eexists; reflexivity).
      right. eexists. split; reflexivity.
    + destruct msg; unfold bind; try rewrite He; cbn;
        try (right; eexists; split; [reflexivity|exact Hr]).
      right. eexists. split; reflexivity.
Qed.

Lemma respond_shape (c : chat_completion) :
  match response_body (respond c) with
  | ChatJson text _ _ _ =>
      status (respond c) = 200%Z /\ nonempty text = true
  | _ => True
  end.
Proof.
  unfold respond. destruct (choices c) as [|first more]; cbn; [exact I|].
  destruct (message_content first) as [text|]; cbn; [|exact I].
  destruct (nonempty text) eqn:Hn; cbn; auto.
Qed.

(** The catch clause answers with an error, or throws; it makes no call. *)
Lemma on_error_shape (e : thrown) (w : world) :
  match fst (on_error e w) with
  | Ok r =>
      match response_body r with
      | ErrorJson _ | UpstreamErrorJson _ _ _ => True
      | _ => False
      end
  | Throw _ => True
  end
  /\ completion_calls (snd (on_error e w)) = completion_calls w.
Proof.
  unfold on_error, new_Response, bind, emit, ret, throw.
  destruct (error_response e) as [r|]; cbn beta iota zeta.
  - match goal with
    | |- context [if ?b then _ else _] => destruct b
    end; [split; [exact I|read_calls]|].
    match goal with
    | |- context [if ?b then _ else _] => destruct b
    end; (split; [exact I|read_calls]).
  - split; [exact I|read_calls].
Qed.

(** The catch clause on an error without a [response]. *)
Lemma on_error_plain (e : thrown) (w : world) :
  error_response e = None ->
  on_error e w
  = (Ok (json_response 500
           (ErrorJson (or_string (Some (error_message e))
                                 "Internal server error"))),
     (w ++ [Console ErrorLevel "Error in openai-chat function:"])%list).
Proof.
  intros Hr. unfold on_error, bind, emit, ret. rewrite Hr. reflexivity.
Qed.

(** The runs that end before the body is used. *)
Lemma chat_run_unauthenticated
    (env : Env) (req : request) (w : world) :
  chat_accepted env req = false ->
  method req = "POST" ->
  fst (serve env req w)
  = Ok (json_response 401
          (ErrorJson (if JsString.truthy (authorization req)
                      then "Unauthorized"
                      else "No authorization header")))
  /\ completion_calls (snd (serve env req w)) = completion_calls w.
Proof.
  unfold chat_accepted. intros Hno Hm. run_chat. rewrite Hm. cbn.
  destruct (authorization req) as [h|]; cbn; [|split; auto].
  unfold nonempty in *.
  destruct (negb (String.eqb h EmptyString)); cbn in *; [|split; auto].
  destruct (auth_getUser env h) as [|[|]]; try discriminate;
    cbn; split; auto; read_calls.
Qed.

Lemma chat_run_no_key
    (env : Env) (req : request) (w : world) (h : string) :
  method req = "POST" ->
  authorization req = Some h ->
  nonempty h = true ->
  auth_getUser env h = AuthUser true ->
  JsString.truthy (OPENAI_API_KEY env) = false ->
  serve env req w
  = (Ok (json_response 500 (ErrorJson "OpenAI API key not configured")),
     (w ++ [GetUser h])%list).
Proof.
  intros Hm Hh Hne Hu Hkey. run_chat.
  rewrite Hm, Hh. cbn. rewrite Hne. cbn. rewrite Hu, Hkey. reflexivity.
Qed.

Lemma chat_run_malformed
    (env : Env) (req : request) (w : world) (h why : string) :
  method req = "POST" ->
  authorization req = Some h ->
  nonempty h = true ->
  auth_getUser env h = AuthUser true ->
  JsString.truthy (OPENAI_API_KEY env) = true ->
  body req = Malformed why ->
  serve env req w = on_error (mkThrown why None) (w ++ [GetUser h])%list.
Proof.
  intros Hm Hh Hne Hu Hkey Hb.
  unfold serve, try_block, completions_create, req_json,
    read_messages, getUser, emit, bind, ret, throw.
  rewrite Hm, Hh. cbn. rewrite Hne. cbn. rewrite Hu, Hkey, Hb. reflexivity.
Qed.

Lemma chat_run_null
    (env : Env) (req : request) (w : world) (h : string) :
  method req = "POST" ->
  authorization req = Some h ->
  nonempty h = true ->
  auth_getUser env h = AuthUser true ->
  JsString.truthy (OPENAI_API_KEY env) = true ->
  body req = Parsed JNull ->
  serve env req w
  = on_error (mkThrown "Cannot read properties of null (reading 'messages')"
                       None)
             (w ++ [GetUser h])%list.
Proof.
  intros Hm Hh Hne Hu Hkey Hb.
  unfold serve, try_block, completions_create, req_json,
    read_messages, getUser, emit, bind, ret, throw.
  rewrite Hm, Hh. cbn. rewrite Hne. cbn. rewrite Hu, Hkey, Hb. reflexivity.
Qed.

(** An authenticated POST with the key configured and a body that parsed
    to something other than [null]: the rest of the run. *)
Lemma chat_run_parsed
    (env : Env) (req : request) (w : world) (h : string) (requestData : json) :
  method req = "POST" ->
  authorization req = Some h ->
  nonempty h = true ->
  auth_getUser env h = AuthUser true ->
  JsString.truthy (OPENAI_API_KEY env) = true ->
  body req = Parsed requestData ->
  requestData <> JNull ->
  serve env req w =
  let w1 := (w ++ [GetUser h])%list in
  if negb (truthy (get "messages" requestData))
     && negb (truthy (get "prompt" requestData))
  then (Ok (json_response 400
              (ErrorJson "Either 'messages' or 'prompt' is required")), w1)
  else
    match chosen_messages (get "prompt" requestData)
                          (get "messages" requestData) with
    | Some (JArr (first :: more)) =>
        match map_messages (first :: more) w1 with
        | (Ok mapped, _) =>
            let sent := chat_request_for requestData mapped in
            match chat_completions_create env sent with
            | ChatResolves c =>
                (Ok (respond c), (w1 ++ [CompletionCall sent])%list)
            | ChatRejects e => on_error e (w1 ++ [CompletionCall sent])%list
            end
        | (Throw e, _) => on_error e w1
        end
    | _ => (Ok (json_response 400 (ErrorJson "Invalid messages format")), w1)
    end.
Proof.
  intros Hm Hh Hne Hu Hkey Hb Hnn.
  unfold serve, try_block. rewrite Hm, Hh. cbn [String.eqb Ascii.eqb Bool.eqb negb].
  rewrite Hne.
  unfold bind at 1. unfold getUser, emit, bind, ret. cbn beta iota.
  rewrite Hu, Hkey. unfold req_json. rewrite Hb.
  unfold ret at 1. cbn beta iota.
  assert (read_messages requestData
          = fun w0 : world => (Ok (get "messages" requestData), w0)) as Hread
    by (destruct requestData; [contradiction|reflexivity..]).
  rewrite Hread. cbn beta iota zeta.
  destruct (negb (truthy (get "messages" requestData))
            && negb (truthy (get "prompt" requestData))); [reflexivity|].
  destruct (chosen_messages (get "prompt" requestData)
                            (get "messages" requestData))
    as [[| | | |[|first more]|]|]; try reflexivity.
  destruct (map_messages_pure (first :: more) (w ++ [GetUser h])%list)
    as [[l Hl]|[e [He _]]].
  - rewrite Hl. unfold completions_create, emit, bind, chat_request_for.
    cbn beta iota.
    destruct (chat_completions_create env _) as [e|c]; reflexivity.
  - rewrite He. reflexivity.
Qed.

(** The run of a request that carries a truthy [prompt]. *)
Lemma chat_run_prompt
    (env : Env) (req : request) (w : world) (h : string)
    (requestData p : json) :
  method req = "POST" ->
  authorization req = Some h ->
  nonempty h = true ->
  auth_getUser env h = AuthUser true ->
  JsString.truthy (OPENAI_API_KEY env) = true ->
  body req = Parsed requestData ->
  get "prompt" requestData = Some p ->
  truthy (Some p) = true ->
  serve env req w =
  let w1 := (w ++ [GetUser h])%list in
  let sent := chat_request_for requestData [prompt_message p] in
  match chat_completions_create env sent with
  | ChatResolves c => (Ok (respond c), (w1 ++ [CompletionCall sent])%list)
  | ChatRejects e => on_error e (w1 ++ [CompletionCall sent])%list
  end.
Proof.
  intros Hm Hh Hne Hu Hkey Hb Hp Ht.
  assert (requestData <> JNull) as Hnn by (intros ->; discriminate).
  rewrite (chat_run_parsed env req w h requestData Hm Hh Hne Hu Hkey Hb Hnn).
  cbn zeta. rewrite Hp, Ht, andb_false_r.
  unfold chosen_messages. rewrite Ht.
  change (map_messages [JObj [("role", JStr "user"); ("content", p)]]
                       (w ++ [GetUser h])%list)
    with (@Ok thrown _ [prompt_message p], (w ++ [GetUser h])%list).
  reflexivity.
Qed.

(** X22.  A prompt wins over messages: for an authenticated POST with
    the key configured whose body parses and has a truthy [prompt], exactly
    one completion call is made.  The request it sends has the prompt as
    its only message, in the role [user], whatever [messages] holds; its
    model is the body's when that is truthy and [gpt-4o-mini] otherwise;
    its temperature is the body's unless that is missing or [null], when it
    is 0.7, so a temperature of 0 is kept; its [max_tokens] is the body's.
    When the call resolves, the response is built from the completion. *)
Theorem X22_prompt_wins_over_messages
    (env : Env) (req : request) (w : world) (h : string)
    (requestData p : json) :
  method req = "POST" ->
  authorization req = Some h ->
  nonempty h = true ->
  auth_getUser env h = AuthUser true ->
  JsString.truthy (OPENAI_API_KEY env) = true ->
  body req = Parsed requestData ->
  get "prompt" requestData = Some p ->
  truthy (Some p) = true ->
  let sent :=
    mkChatRequest
      match get "model" requestData with
      | Some m => if truthy (Some m) then m else JStr "gpt-4o-mini"
      | None => JStr "gpt-4o-mini"
      end
      [mkMessage (Some (JStr "user")) (Some p)]
      match get "temperature" requestData with
      | None | Some JNull => JNum "0.7"
      | Some t => t
      end
      (get "max_tokens" requestData) in
  completion_calls (snd (serve env req w))
  = (completion_calls w ++ [CompletionCall sent])%list
  /\ (forall completion : chat_completion,
        chat_completions_create env sent = ChatResolves completion ->
        fst (serve env req w) = Ok (respond completion)).
Proof.
  intros Hm Hh Hne Hu Hkey Hb Hp Ht sent.
  rewrite (chat_run_prompt env req w h requestData p Hm Hh Hne Hu Hkey Hb Hp Ht).
  cbn zeta.
  change (chat_request_for requestData [prompt_message p]) with sent.
  destruct (chat_completions_create env sent) as [e|c] eqn:Hc.
  - split; [|discriminate].
    rewrite (proj2 (on_error_shape e _)). read_calls.
  - split; [read_calls|].
    intros completion Heq. inversion Heq. reflexivity.
Qed.

Lemma X22_witness :
  completion_calls
    (snd (serve ChatSample.env (ChatSample.ask (Parsed ChatSample.both)) []))
  = [CompletionCall
       (mkChatRequest (JStr "gpt-4o-mini")
                      [mkMessage (Some (JStr "user")) (Some (JStr "Say hello"))]
                      (JNum "0") None)].
Proof.
  refine (proj1 (X22_prompt_wins_over_messages ChatSample.env
                   (ChatSample.ask (Parsed ChatSample.both)) []
                   "Bearer alice-token" ChatSample.both (JStr "Say hello")
                   _ _ _ _ _ _ _ _));
    reflexivity.
Defined.

(** X23.  An answer is never empty: whenever the response carries a chat
    answer, its status is 200, its content is a non-empty string, and the
    request made exactly one completion call. *)
Theorem X23_chat_answer_is_never_empty
    (env : Env) (req : request) (w : world) :
  match fst (serve env req w) with
  | Ok r =>
      match response_body r with
      | ChatJson text _ _ _ =>
          status r = 200%Z
          /\ nonempty text = true
          /\ exists sent : chat_request,
               completion_calls (snd (serve env req w))
               = (completion_calls w ++ [CompletionCall sent])%list
      | _ => True
      end
  | Throw _ => True
  end.
Proof.
  assert (forall e w1,
            match fst (on_error e w1) with
            | Ok r =>
                match response_body r with
                | ChatJson text _ _ _ =>
                    status r = 200%Z
                    /\ nonempty text = true
                    /\ exists sent : chat_request,
                         completion_calls (snd (on_error e w1))
                         = (completion_calls w ++ [CompletionCall sent])%list
                | _ => True
                end
            | Throw _ => True
            end) as Hcatch.
  { intros e w1. pose proof (proj1 (on_error_shape e w1)) as Hs.
    destruct (fst (on_error e w1)) as [r|]; [|exact I].
    destruct (response_body r); try exact I; contradiction. }
  destruct (String.eqb_spec (method req) "POST") as [Hm|Hm].
  2:{ unfold serve. apply String.eqb_neq in Hm. rewrite Hm.
      destruct (String.eqb (method req) "OPTIONS"); exact I. }
  destruct (chat_accepted env req) eqn:Hacc.
  2:{ destruct (chat_run_unauthenticated env req w Hacc Hm)
        as [-> _]. exact I. }
  unfold chat_accepted in Hacc.
  destruct (authorization req) as [h|] eqn:Hh; [|discriminate].
  apply andb_prop in Hacc. destruct Hacc as [Hne Hu].
  destruct (auth_getUser env h) as [|[|]] eqn:Hauth; try discriminate.
  destruct (JsString.truthy (OPENAI_API_KEY env)) eqn:Hkey.
  2:{ rewrite (chat_run_no_key env req w h Hm Hh Hne Hauth Hkey). exact I. }
  destruct (body req) as [why|requestData] eqn:Hb.
  { rewrite (chat_run_malformed env req w h why Hm Hh Hne Hauth Hkey Hb).
    apply Hcatch. }
  destruct requestData as [| | | | |] eqn:Hrd.
  { rewrite (chat_run_null env req w h Hm Hh Hne Hauth Hkey Hb).
    apply Hcatch. }
  all: rewrite <- Hrd in *;
    assert (requestData <> JNull) as Hnn by (rewrite Hrd; discriminate);
    rewrite (chat_run_parsed env req w h requestData
               Hm Hh Hne Hauth Hkey Hb Hnn); cbn zeta;
    clear Hrd;
    (destruct (negb (truthy (get "messages" requestData))
               && negb (truthy (get "prompt" requestData))); [exact I|]);
    (destruct (chosen_messages (get "prompt" requestData)
                               (get "messages" requestData))
       as [[| | | |[|first more]|]|]; try exact I);
    (destruct (map_messages (first :: more) (w ++ [GetUser h])%list)
       as [[mapped|e] w']; [|apply Hcatch]);
    (destruct (chat_completions_create env _) as [e|c]; [apply Hcatch|]);
    cbn [fst snd];
    pose proof (respond_shape c) as Hs;
    (destruct (response_body (respond c)); try exact I);
    destruct Hs as [Hs1 Hs2]; repeat split; auto;
    eexists; read_calls.
Qed.

(** X24.  A failure of the provider is a 500 here: for an authenticated
    POST with the key configured and a truthy [prompt], when the completion
    call rejects with an error that has no [response] property, as the
    errors of the client made by [new OpenAI] have none, the function makes
    that one call and answers 500 with the error's message, or with
    [Internal server error] if the message is empty.  The status the
    provider answered with is looked for under [error.response] only, so it
    does not reach the caller. *)
Theorem X24_provider_failure_is_answered_500
    (env : Env) (req : request) (w : world) (h : string)
    (requestData p : json) (e : thrown) :
  method req = "POST" ->
  authorization req = Some h ->
  nonempty h = true ->
  auth_getUser env h = AuthUser true ->
  JsString.truthy (OPENAI_API_KEY env) = true ->
  body req = Parsed requestData ->
  get "prompt" requestData = Some p ->
  truthy (Some p) = true ->
  chat_completions_create env (chat_request_for requestData [prompt_message p])
  = ChatRejects e ->
  error_response e = None ->
  fst (serve env req w)
  = Ok (json_response 500
          (ErrorJson (if nonempty (error_message e)
                      then error_message e
                      else "Internal server error")))
  /\ completion_calls (snd (serve env req w))
     = (completion_calls w
        ++ [CompletionCall
              (chat_request_for requestData [prompt_message p])])%list.
Proof.
  intros Hm Hh Hne Hu Hkey Hb Hp Ht Hrej Hr.
  rewrite (chat_run_prompt env req w h requestData p Hm Hh Hne Hu Hkey Hb Hp Ht).
  cbn zeta. rewrite Hrej, (on_error_plain e _ Hr). cbn [fst snd].
  split; [reflexivity|read_calls].
Qed.

Lemma X24_witness :
  fst (serve ChatSample.env_limited (ChatSample.ask (Parsed ChatSample.both)) [])
  = Ok (json_response 500 (ErrorJson "429 Rate limit reached")).
Proof.
  refine (proj1 (X24_provider_failure_is_answered_500 ChatSample.env_limited
                   (ChatSample.ask (Parsed ChatSample.both)) []
                   "Bearer alice-token"
                   ChatSample.both (JStr "Say hello") ChatSample.rate_limited
                   _ _ _ _ _ _ _ _ _ _));
    reflexivity.
Defined.

(** X25.  Messages are checked in two steps: for an authenticated POST
    with the key configured, a body other than [null] and no truthy
    [prompt], anything but a non-empty array as [messages] is answered
    400 without a completion call; the message is the "required" one when
    [messages] is falsy, and [Invalid messages format] when it is truthy,
    an empty array included. *)
Theorem X25_messages_must_be_a_non_empty_array
    (env : Env) (req : request) (w : world) (h : string) (requestData : json) :
  method req = "POST" ->
  authorization req = Some h ->
  nonempty h = true ->
  auth_getUser env h = AuthUser true ->
  JsString.truthy (OPENAI_API_KEY env) = true ->
  body req = Parsed requestData ->
  requestData <> JNull ->
  truthy (get "prompt" requestData) = false ->
  match get "messages" requestData with
  | Some (JArr (_ :: _)) => True
  | given =>
      serve env req w
      = (Ok (json_response 400
               (ErrorJson (if truthy given then "Invalid messages format"
                           else "Either 'messages' or 'prompt' is required"))),
         (w ++ [GetUser h])%list)
  end.
Proof.
  intros Hm Hh Hne Hu Hkey Hb Hnn Hp.
  rewrite (chat_run_parsed env req w h requestData Hm Hh Hne Hu Hkey Hb Hnn).
  cbn zeta. rewrite Hp. unfold chosen_messages.
  destruct (get "prompt" requestData) as [p|]; rewrite ?Hp;
    destruct (get "messages" requestData) as [[|[]|repr|txt|[|first more]|]|];
    cbn; try exact I; try reflexivity;
    unfold nonempty;
    match goal with
    | |- context [String.eqb ?a ?b] => destruct (String.eqb a b); reflexivity
    end.
Qed.

Lemma X25_witness :
  serve ChatSample.env
        (ChatSample.ask (Parsed (JObj [("messages", JArr [])]))) []
  = (Ok (json_response 400 (ErrorJson "Invalid messages format")),
     [GetUser "Bearer alice-token"]).
Proof.
  refine (X25_messages_must_be_a_non_empty_array ChatSample.env
            (ChatSample.ask (Parsed (JObj [("messages", JArr [])]))) []
            "Bearer alice-token" (JObj [("messages", JArr [])])
            _ _ _ _ _ _ _ _); try reflexivity.
  discriminate.
Defined.

End ChatFacts.

(* ===================================================================== *)
(** ** Beyond the claims: the due-date cell, the hook, the users table *)
(* ===================================================================== *)

Section TaskRowFacts.

Import TaskRow.
Local Open Scope string_scope.

Lemma split_head_has_no_separator (sep : ascii) (s : string) :
  JsSplit.contains sep (hd EmptyString (JsSplit.split sep s)) = false.
Proof.
  induction s as [|c s IH]; cbn; [reflexivity|].
  destruct (Ascii.eqb c sep) eqn:Hc; cbn; [reflexivity|].
  destruct (JsSplit.split sep s) as [|segment more]; cbn in *.
  - rewrite Ascii.eqb_sym, Hc. reflexivity.
  - unfold JsSplit.contains in *. cbn.
    rewrite Ascii.eqb_sym, Hc. exact IH.
Qed.

Lemma formatDate_head (s : string) :
  formatDate s = hd EmptyString (JsSplit.split "T" s).
Proof.
  unfold formatDate, JsSplit.segment.
  destruct (JsSplit.split "T" s); reflexivity.
Qed.

(** X26.  The due-date cell shows the date of a timestamp: the text
    before the first [T].  An ISO timestamp is cut down to its date, a
    text without [T] is shown whole, what is shown never contains a [T],
    and a task without due date shows nothing. *)
Theorem X26_due_date_cell_shows_the_date (date time : string) :
  JsSplit.contains "T" date = false ->
  formatDate (date ++ "T" ++ time) = date
  /\ formatDate date = date
  /\ due_date_cell (Some (date ++ "T" ++ time)) = date
  /\ due_date_cell None = EmptyString
  /\ (forall s : string, JsSplit.contains "T" (formatDate s) = false).
Proof.
  intros Hd.
  assert (formatDate (date ++ "T" ++ time) = date) as Hiso.
  { unfold formatDate, JsSplit.segment.
    change (date ++ "T" ++ time) with (date ++ String "T" time).
    rewrite (split_at_first_separator _ _ _ Hd). reflexivity. }
  repeat split.
  - exact Hiso.
  - unfold formatDate, JsSplit.segment.
    rewrite (split_without_separator _ _ Hd). reflexivity.
  - unfold due_date_cell.
    assert (nonempty (date ++ "T" ++ time) = true) as Hne
      by (destruct date; reflexivity).
    rewrite Hne. exact Hiso.
  - intros s. rewrite formatDate_head. apply split_head_has_no_separator.
Qed.

Lemma X26_witness :
  due_date_cell (Some ("2024-05-01" ++ "T" ++ "10:30:00+00:00")) = "2024-05-01".
Proof.
  refine (proj1 (proj2 (proj2 (X26_due_date_cell_shows_the_date
                                 "2024-05-01" "10:30:00+00:00" _)))).
  reflexivity.
Defined.

End TaskRowFacts.

Section HookFacts.

Import Effects UseOpenAI.
Local Open Scope string_scope.

(** X27.  However [chat] ends, the hook is left consistent: the loading
    flag is off; after a success the error is cleared; after a failure
    the error shown is a non-empty text, the thrown message itself unless
    that is empty, and the failure is rethrown.  Without a session nothing
    is fetched. *)
Theorem X27_chat_leaves_the_hook_consistent
    (env : Env) (request : json) (w : world) :
  isLoading (ui (snd (chat env request w))) = false
  /\ (access_token env = None ->
      trace (snd (chat env request w)) = trace w
      /\ fst (chat env request w) = Throw "Not authenticated")
  /\ match fst (chat env request w) with
     | Ok _ => error (ui (snd (chat env request w))) = None
     | Throw msg =>
         exists shown : string,
           error (ui (snd (chat env request w))) = Some shown
           /\ nonempty shown = true
           /\ (nonempty msg = true -> shown = msg)
     end.
Proof.
  unfold chat, attempt, setIsLoading, setError, bind, ret, throw. cbn.
  destruct (access_token env) as [token|]; cbn.
  - split; [|split; [discriminate|]].
    + destruct (fetch env _ request) as [msg|r]; cbn; [reflexivity|].
      destruct (ok r); cbn; [destruct (json_body r)|]; reflexivity.
    + destruct (fetch env _ request) as [msg|r]; cbn.
      * exists (if nonempty msg then msg else "An error occurred").
        destruct (nonempty msg) eqn:Hn; repeat split; auto. discriminate.
      * destruct (ok r); cbn.
        -- destruct (json_body r) as [why|data]; cbn; [|reflexivity].
           exists (if nonempty why then why else "An error occurred").
           destruct (nonempty why) eqn:Hn; repeat split; auto. discriminate.
        -- exists (if nonempty (error_text env r) then error_text env r
                   else "An error occurred").
           destruct (nonempty (error_text env r)) eqn:Hn; repeat split; auto.
           discriminate.
  - repeat split. exists "Not authenticated". repeat split.
Qed.

End HookFacts.

Section UsersFacts.

Import UsersSync.
Local Open Scope string_scope.

Lemma is_user_absent (uid : string) (users : list user_row) :
  existsb (is_user uid) users = false -> ~ In uid (map user_id users).
Proof.
  induction users as [|r rs IH]; cbn; [tauto|].
  unfold is_user at 1.
  destruct (String.eqb_spec (user_id r) uid) as [Heq|Hne]; cbn;
    [discriminate|].
  intros H [Habs|Hin]; [contradiction|]. exact (IH H Hin).
Qed.

Lemma find_user_absent (uid : string) (users : list user_row) :
  existsb (is_user uid) users = false -> find (is_user uid) users = None.
Proof.
  induction users as [|r rs IH]; cbn; [reflexivity|].
  destruct (is_user uid r); cbn; [discriminate|exact IH].
Qed.

Lemma find_user_appended (uid : string) (row : user_row)
    (users : list user_row) :
  find (is_user uid) (users ++ [row])
  = match find (is_user uid) users with
    | Some r => Some r
    | None => if is_user uid row then Some row else None
    end.
Proof.
  induction users as [|r rs IH]; cbn; [reflexivity|].
  destruct (is_user uid r); [reflexivity|exact IH].
Qed.

Lemma upsert_keeps_ids (uid e : string) (proposed : option string) (now : Z)
    (users : list user_row) :
  map user_id (map (upsert uid e proposed now) users) = map user_id users.
Proof.
  rewrite map_map. apply map_ext. intros r. unfold upsert.
  destruct (is_user uid r); reflexivity.
Qed.

Lemma is_user_upsert (uid e : string) (proposed : option string) (now : Z)
    (other : string) (r : user_row) :
  is_user other (upsert uid e proposed now r) = is_user other r.
Proof. unfold upsert. destruct (is_user uid r); reflexivity. Qed.

Lemma find_upserted (uid e : string) (proposed : option string) (now : Z)
    (other : string) (users : list user_row) :
  find (is_user other) (map (upsert uid e proposed now) users)
  = option_map (upsert uid e proposed now) (find (is_user other) users).
Proof.
  induction users as [|r rs IH]; cbn; [reflexivity|].
  rewrite is_user_upsert. destruct (is_user other r); [reflexivity|exact IH].
Qed.

Lemma existsb_upserted (uid e : string) (proposed : option string) (now : Z)
    (other : string) (users : list user_row) :
  existsb (is_user other) (map (upsert uid e proposed now) users)
  = existsb (is_user other) users.
Proof.
  induction users as [|r rs IH]; cbn; [reflexivity|].
  rewrite is_user_upsert, IH. reflexivity.
Qed.

Lemma is_user_found (uid : string) (users : list user_row) :
  existsb (is_user uid) users = true ->
  exists old : user_row,
    find (is_user uid) users = Some old /\ is_user uid old = true.
Proof.
  induction users as [|r rs IH]; cbn; [discriminate|].
  destruct (is_user uid r) eqn:Hr; cbn; [eauto|exact IH].
Qed.

Lemma is_user_other (uid other : string) (r : user_row) :
  other <> uid -> is_user other r = true -> is_user uid r = false.
Proof.
  unfold is_user. intros Hne Ho. apply String.eqb_eq in Ho.
  apply String.eqb_neq. congruence.
Qed.

(** X28.  The trigger function upserts: fired for a user with an email
    on a table where [user_id] is a key, it succeeds and leaves a table
    where [user_id] is still a key, with one row for the user: the new
    email, the name from the metadata or else the part of the email
    before [@] (whatever name the row had), [updated_at] at the time of
    firing and [created_at] kept from an existing row.  Every other
    user's row is as it was. *)
Theorem X28_sync_upserts_the_user
    (new : auth_user) (now : Z) (users : list user_row) (e : string) :
  email new = Some e ->
  user_id_is_key users ->
  exists (users' : list user_row) (row : user_row),
    sync_user_to_users_table new now users = inr users'
    /\ user_id_is_key users'
    /\ lookup (id new) users' = Some row
    /\ user_id row = id new
    /\ user_email row = e
    /\ name row = Some (synced_name new e)
    /\ updated_at row = now
    /\ created_at row = match lookup (id new) users with
                        | Some old => created_at old
                        | None => now
                        end
    /\ (forall other : string,
          other <> id new -> lookup other users' = lookup other users).
Proof.
  intros He Hkey. unfold sync_user_to_users_table, user_id_is_key, lookup in *.
  rewrite He.
  assert (proposed_name new = Some (synced_name new e)) as Hname.
  { unfold proposed_name, synced_name, coalesce. rewrite He.
    destruct (meta_name new); reflexivity. }
  destruct (existsb (is_user (id new)) users) eqn:Hex.
  - destruct (is_user_found _ _ Hex) as (old & Hold & Hid).
    eexists. exists (refresh e (proposed_name new) now old).
    split; [reflexivity|].
    split; [rewrite upsert_keeps_ids; exact Hkey|].
    split; [rewrite find_upserted, Hold; cbn; unfold upsert; rewrite Hid;
            reflexivity|].
    rewrite Hold, Hname. unfold is_user in Hid. apply String.eqb_eq in Hid.
    repeat split; auto.
    intros other Hne. rewrite find_upserted.
    destruct (find (is_user other) users) as [r|] eqn:Hr; [|reflexivity].
    cbn. apply find_some in Hr. destruct Hr as [_ Hr]. unfold upsert.
    rewrite (is_user_other (id new) other r Hne Hr). reflexivity.
  - eexists. exists (mkRow (id new) e (proposed_name new) now now).
    split; [reflexivity|].
    split.
    { rewrite map_app. cbn.
      apply NoDup_app; [exact Hkey|repeat constructor; intros []|].
      intros a Ha [<-|[]]. exact (is_user_absent _ _ Hex Ha). }
    rewrite find_user_appended, (find_user_absent _ _ Hex).
    unfold is_user at 1. cbn [user_id]. rewrite String.eqb_refl.
    rewrite Hname. repeat split.
    intros other Hne. rewrite find_user_appended.
    destruct (find (is_user other) users); [reflexivity|].
    unfold is_user. cbn [user_id].
    destruct (String.eqb_spec (id new) other); [congruence|reflexivity].
Qed.

Lemma X28_witness :
  exists (users' : list user_row) (row : user_row),
    sync_user_to_users_table UsersSample.erin 9 UsersSample.users = inr users'
    /\ lookup "erin-uuid" users' = Some row
    /\ name row = Some "erin"
    /\ created_at row = 7%Z.
Proof.
  destruct (X28_sync_upserts_the_user UsersSample.erin 9 UsersSample.users
              "erin@example.org")
    as (users' & row & H1 & _ & H3 & _ & _ & H6 & _ & H8 & _).
  - reflexivity.
  - unfold user_id_is_key. cbn. repeat constructor; cbn; intuition discriminate.
  - exists users', row. repeat split; auto.
Defined.

(** X29.  Firing again only touches the clock: once the trigger function
    has run for a user, running it again for the same user row at a later
    time changes [updated_at] of that user's row and nothing else. *)
Theorem X29_second_sync_only_moves_updated_at
    (new : auth_user) (first later : Z) (users users1 : list user_row) :
  sync_user_to_users_table new first users = inr users1 ->
  sync_user_to_users_table new later users1
  = inr (map (touched (id new) later) users1).
Proof.
  unfold sync_user_to_users_table.
  destruct (email new) as [e|] eqn:He; [|discriminate].
  assert (forall r : user_row,
            upsert (id new) e (proposed_name new) later
                   (upsert (id new) e (proposed_name new) first r)
            = touched (id new) later
                      (upsert (id new) e (proposed_name new) first r))
    as Htwice.
  { intros r. unfold touched. rewrite is_user_upsert.
    unfold upsert at 1. rewrite is_user_upsert.
    destruct (is_user (id new) r) eqn:Hr; [|reflexivity].
    unfold upsert. rewrite Hr. unfold refresh, coalesce. cbn.
    destruct (proposed_name new); reflexivity. }
  destruct (existsb (is_user (id new)) users) eqn:Hex.
  - intros H. inversion H. subst users1. clear H.
    rewrite existsb_upserted, Hex. f_equal.
    rewrite !map_map. apply map_ext. exact Htwice.
  - intros H. inversion H. subst users1. clear H.
    rewrite existsb_app, Hex. cbn. rewrite String.eqb_refl. cbn.
    rewrite !map_app. cbn. f_equal. f_equal.
    + apply map_ext_in. intros r Hin. unfold upsert, touched.
      destruct (is_user (id new) r) eqn:Hr; [|reflexivity].
      exfalso. assert (existsb (is_user (id new)) users = true) as Habs
        by (apply existsb_exists; eauto).
      congruence.
    + unfold upsert, touched, is_user. cbn [user_id]. rewrite String.eqb_refl.
      unfold refresh, coalesce. cbn.
      destruct (proposed_name new); reflexivity.
Qed.

Lemma X29_witness :
  sync_user_to_users_table UsersSample.erin 12
    [UsersSample.frank_row;
     mkRow "erin-uuid" "erin@example.org" (Some "erin") 7 9]
  = inr [UsersSample.frank_row;
         mkRow "erin-uuid" "erin@example.org" (Some "erin") 7 12].
Proof.
  apply (X29_second_sync_only_moves_updated_at UsersSample.erin 9 12
           UsersSample.users).
  reflexivity.
Defined.

End UsersFacts.
